(** * EdgelessDB syscall handler: paths, store mapping and data I/O

    A shallow embedding of [src/syscall_handler.cc]: the path helpers and the
    three path grammars, the handlers [Open], [Stat], [Access], [Rename],
    [Unlink], the directory synthesizer [Dir] and the data operations
    [Read], [Write], [Size], over a model of the key-value store and of the
    in-enclave scratch filesystem they talk to.

    A handler is a function from the state it can reach (the store, the
    scratch filesystem, [errno], the caller's stat buffers, and a trace of
    the store calls it made) to a result and the state it leaves. A result
    is a returned value, a thrown C++ exception, or the abort of a failed
    [assert]. The [lock_guard] makes each handler's store section atomic;
    the embedding runs one handler at a time. Sizes and offsets are
    [size_t], modelled as [Z] with the wrap-around at [2^64] written out
    where the code adds. A [std::string] cannot grow past [max_size()]:
    [resize] throws [std::length_error] above it; below it the memory is
    taken to be there. The C library calls on the scratch filesystem leave
    their error code in [errno] when they fail. *)

From Stdlib Require Import ZArith Lia List Ascii String Bool.
From Stdlib Require Import Strings.Byte.
From stdpp Require Import base option list strings gmap.

Local Open Scope string_scope.
Local Open Scope Z_scope.

(** ** Strings as [std::string] / [std::string_view] *)

Module Str.

(** [size_t] is the 64-bit unsigned word of the enclave's x86-64 target. *)
Definition size_max : Z := 2 ^ 64 - 1.
Definition wrap (z : Z) : Z := z mod 2 ^ 64.

(** [std::string::max_size()], here libstdc++'s on x86-64 (half of
    [PTRDIFF_MAX]); every implementation has it below the largest
    [size_t]. *)
Definition max_size : Z := 2 ^ 62 - 1.

(** [std::string::npos], the largest [size_t]. *)
Definition npos : Z := size_max.

Definition size (s : string) : Z := Z.of_nat (String.length s).

(** [s.substr(pos, n)] and [string(s, pos, n)] for [pos <= s.size()]: the
    count is clamped to what is left of the string. *)
Definition substr (pos n : Z) (s : string) : string :=
  substring (Z.to_nat pos) (Z.to_nat (Z.min n (size s - pos))) s.

(** Index of the last occurrence of [c] in [s], counted from [i]. *)
Fixpoint rfind_from (c : ascii) (s : string) (i : nat) : option nat :=
  match s with
  | EmptyString => None
  | String a s' =>
      match rfind_from c s' (S i) with
      | Some j => Some j
      | None => if Ascii.eqb a c then Some i else None
      end
  end.

(** [s.rfind(c)]: position of the last [c], or [npos]. *)
Definition rfind (c : ascii) (s : string) : Z :=
  match rfind_from c s 0 with
  | Some j => Z.of_nat j
  | None => npos
  end.

(** [s.substr(pos)] for [pos <= s.size()]: the rest of the string. *)
Definition substr_from (pos : Z) (s : string) : string :=
  substring (Z.to_nat pos) (String.length s - Z.to_nat pos) s.

(** [s.erase(pos, n)]: [None] stands for the [std::out_of_range] thrown when
    [pos > s.size()]; otherwise [min(n, s.size() - pos)] characters go. *)
Definition erase (pos n : Z) (s : string) : option string :=
  if size s <? pos then None
  else
    let n' := Z.min n (size s - pos) in
    Some (substr 0 pos s +:+ substr_from (pos + n') s).

(** [s.erase(pos)]: everything from [pos] on goes. *)
Definition erase_from (pos : Z) (s : string) : option string :=
  if size s <? pos then None else Some (substr 0 pos s).

(** Whether [c] occurs in [s]. *)
Fixpoint contains (c : ascii) (s : string) : bool :=
  match s with
  | EmptyString => false
  | String a s' => Ascii.eqb a c || contains c s'
  end.

(** Every [std::string] has a size that fits [size_t]. *)
Definition representable (s : string) : Prop := size s <= size_max.

(** [s.back()] on a nonempty string. *)
Fixpoint back (s : string) : option ascii :=
  match s with
  | EmptyString => None
  | String a EmptyString => Some a
  | String _ s' => back s'
  end.

End Str.

(** [StrEndsWith(str, suffix)]: the size test guards the subtraction. *)
Definition StrEndsWith (str suffix : string) : bool :=
  (String.length suffix <=? String.length str)%nat
  && String.eqb
       (substring (String.length str - String.length suffix)
                  (String.length suffix) str)
       suffix.

Definition temp_frm_ext : string := ".frm~".

Definition IsKnownExtension (path : string) : bool :=
  StrEndsWith path ".frm" || StrEndsWith path ".opt".

(** ** Regular expressions, matched against the whole string
    ([std::regex_match]) *)

Module Regex.

Inductive regex : Type :=
| Void : regex
| Eps : regex
| Chr (c : ascii) : regex
| NoneOf (cs : list ascii) : regex
| Cat (r1 r2 : regex) : regex
| Alt (r1 r2 : regex) : regex
| Star (r : regex) : regex.

Definition Plus (r : regex) : regex := Cat r (Star r).
Definition Opt (r : regex) : regex := Alt r Eps.

(** The characters of a literal, one after the other. *)
Fixpoint Lits (s : string) : regex :=
  match s with
  | EmptyString => Eps
  | String c s' => Cat (Chr c) (Lits s')
  end.

Definition in_class (a : ascii) (cs : list ascii) : bool :=
  existsb (Ascii.eqb a) cs.

Fixpoint nullable (r : regex) : bool :=
  match r with
  | Void => false
  | Eps => true
  | Chr _ => false
  | NoneOf _ => false
  | Cat r1 r2 => nullable r1 && nullable r2
  | Alt r1 r2 => nullable r1 || nullable r2
  | Star _ => true
  end.

Fixpoint deriv (a : ascii) (r : regex) : regex :=
  match r with
  | Void => Void
  | Eps => Void
  | Chr c => if Ascii.eqb a c then Eps else Void
  | NoneOf cs => if in_class a cs then Void else Eps
  | Cat r1 r2 =>
      if nullable r1
      then Alt (Cat (deriv a r1) r2) (deriv a r2)
      else Cat (deriv a r1) r2
  | Alt r1 r2 => Alt (deriv a r1) (deriv a r2)
  | Star r1 => Cat (deriv a r1) (Star r1)
  end.

Fixpoint regex_match (s : string) (r : regex) : bool :=
  match s with
  | EmptyString => nullable r
  | String a s' => regex_match s' (deriv a r)
  end.

(** The language of a regular expression. *)
Inductive matches : regex -> string -> Prop :=
| m_eps : matches Eps ""
| m_chr c : matches (Chr c) (String c "")
| m_noneof cs a : in_class a cs = false -> matches (NoneOf cs) (String a "")
| m_cat r1 r2 s1 s2 :
    matches r1 s1 -> matches r2 s2 -> matches (Cat r1 r2) (s1 +:+ s2)
| m_alt_l r1 r2 s : matches r1 s -> matches (Alt r1 r2) s
| m_alt_r r1 r2 s : matches r2 s -> matches (Alt r1 r2) s
| m_star_nil r : matches (Star r) ""
| m_star_cons r s1 s2 :
    matches r s1 -> matches (Star r) s2 -> matches (Star r) (s1 +:+ s2).

End Regex.

Import Regex.

(** A path segment: one or more characters other than [.] and [/]. *)
Definition segment : regex := Plus (NoneOf ["."%char; "/"%char]).

(** [\./[^./]+/?] *)
Definition re_folder : regex :=
  Cat (Lits "./") (Cat segment (Opt (Chr "/"))).

(** [\./[^./]+/(db\.opt|[^./]+\.frm)] *)
Definition re_path_to_known_file : regex :=
  Cat (Lits "./")
      (Cat segment
           (Cat (Chr "/") (Alt (Lits "db.opt") (Cat segment (Lits ".frm"))))).

(** [\./[^./]+/[^./]+\.frm~] *)
Definition re_path_to_temp_frm_file : regex :=
  Cat (Lits "./")
      (Cat segment (Cat (Chr "/") (Cat segment (Lits ".frm~")))).

(** What a [<db>] or [<table>] name is: nonempty, without [.] and [/]. *)
Definition is_segment (d : string) : bool :=
  negb (String.eqb d "")
  && negb (Str.contains "." d) && negb (Str.contains "/" d).

(** A string without [.] and [/]. *)
Definition plain (s : string) : bool :=
  negb (Str.contains "." s) && negb (Str.contains "/" s).

(** [NormalizePath]: the absolute form under [/data/] becomes relative. *)
Definition NormalizePath (path : string) : string :=
  let datadir := "/data/" in
  if negb (String.eqb (Str.substr 0 (Str.size datadir) path) datadir)
  then path
  else if String.eqb path datadir then "."
  else "./" +:+ Str.substr_from (Str.size datadir) path.

(** ** The key-value store *)

Module Store.

(** The two column-family names of the store's header, [kCfNameDb] for the
    [db.opt] entries and [kCfNameFrm] for the [.frm] entries. *)
Inductive Cf : Type := kCfNameDb | kCfNameFrm.

(** Modelled from the spec: the store behind the abstract [Store] interface
    ([store_->Get], [Put], [Delete], [GetKeys]); its implementation is not
    part of the handler. It maps, per column family, a key to the whole
    value, and lists the keys of a family that start with a prefix in the
    store's own key order. *)
Record t : Type := mk {
  cf_db : gmap string (list byte);
  cf_frm : gmap string (list byte)
}.

Definition column (cf : Cf) (s : t) : gmap string (list byte) :=
  match cf with
  | kCfNameDb => cf_db s
  | kCfNameFrm => cf_frm s
  end.

Definition with_column (cf : Cf) (m : gmap string (list byte)) (s : t) : t :=
  match cf with
  | kCfNameDb => mk m (cf_frm s)
  | kCfNameFrm => mk (cf_db s) m
  end.

(** Modelled from the spec: [Get(cf, key) -> optional<bytes>] of the store
    contract, the value under [key] in family [cf] if there is one. *)
Definition Get (cf : Cf) (key : string) (s : t) : option (list byte) :=
  column cf s !! key.

(** Modelled from the spec: [Put(cf, key, bytes)] of the store contract,
    which sets the whole value under [key] in family [cf]. *)
Definition Put (cf : Cf) (key : string) (value : list byte) (s : t) : t :=
  with_column cf (<[key := value]> (column cf s)) s.

(** Modelled from the spec: [Delete(cf, key)] of the store contract;
    removing a key that is not there changes nothing. *)
Definition Delete (cf : Cf) (key : string) (s : t) : t :=
  with_column cf (delete key (column cf s)) s.

(** Modelled from the spec: [GetKeys(cf, prefix) -> ordered list of keys]
    of the store contract, the keys of family [cf] that start with [prefix],
    in the order the store enumerates them. *)
Definition GetKeys (cf : Cf) (prefix : string) (s : t) : list string :=
  List.filter (String.prefix prefix) (map fst (map_to_list (column cf s))).

Definition empty : t := mk ∅ ∅.

(** One call on the store, as the handler issues it. *)
Inductive Call : Type :=
| CallGet (cf : Cf) (key : string)
| CallPut (cf : Cf) (key : string) (value : list byte)
| CallDelete (cf : Cf) (key : string)
| CallGetKeys (cf : Cf) (prefix : string).

End Store.

Import Store.

(** ** The scratch filesystem of temporary [.frm~] files *)

Module Memfs.

(** Modelled from the spec: the ephemeral medium that holds the temporary
    files, reached through [mkdir], [fopen]/[fread] and [remove]; it is not
    part of the handler. Directories are a set of names, files a map from
    name to content. *)
Record t : Type := mk {
  dirs : gset string;
  files : gmap string (list byte)
}.

Definition empty : t := mk ∅ ∅.

(** Whether a folder or a file of that name is there. *)
Definition present (path : string) (f : t) : bool :=
  bool_decide (path ∈ dirs f) || bool_decide (is_Some (files f !! path)).

End Memfs.

(** The part of [struct stat] the handler fills in; every other field is
    zeroed by the [memset]. *)
Record stat : Type := { st_size : Z }.

(** ** Handler state, results and exceptions *)

Record World : Type := mkWorld {
  w_store : Store.t;
  w_memfs : Memfs.t;
  w_errno : Z;
  (* the caller's [struct stat] buffers, by address *)
  w_statbuf : gmap Z stat;
  (* the store calls made so far, oldest first *)
  w_trace : list Store.Call
}.

Inductive Exn : Type :=
| invalid_argument (what : string)
| runtime_error (what : string)
| logic_error (what : string)
| overflow_error (what : string)
| out_of_range
| length_error
| bad_optional_access.

(** A call returns, throws, or dies on a failed [assert]. *)
Inductive Res (A : Type) : Type :=
| Ret (a : A)
| Throw (e : Exn)
| Aborted.
Arguments Ret {A} a.
Arguments Throw {A} e.
Arguments Aborted {A}.

Definition M (A : Type) : Type := World -> Res A * World.

Definition ret {A} (a : A) : M A := fun w => (Ret a, w).
Definition throw {A} (e : Exn) : M A := fun w => (Throw e, w).

Definition bind {A B} (m : M A) (k : A -> M B) : M B :=
  fun w =>
    match m w with
    | (Ret a, w') => k a w'
    | (Throw e, w') => (Throw e, w')
    | (Aborted, w') => (Aborted, w')
    end.

Declare Scope handler_scope.
Delimit Scope handler_scope with handler.
Notation "x <- m ;; k" := (bind m (fun x => k))
  (at level 100, m at next level, right associativity) : handler_scope.
Notation "m ;; k" := (bind m (fun _ => k))
  (at level 100, right associativity) : handler_scope.
Local Open Scope handler_scope.

(** [assert(b)], as built with assertions on. *)
Definition assert_ (b : bool) : M unit :=
  fun w => if b then (Ret tt, w) else (Aborted, w).

Definition log (c : Store.Call) (w : World) : World :=
  mkWorld (w_store w) (w_memfs w) (w_errno w) (w_statbuf w) (w_trace w ++ [c]).

Definition set_store (s : Store.t) (w : World) : World :=
  mkWorld s (w_memfs w) (w_errno w) (w_statbuf w) (w_trace w).

Definition set_memfs (f : Memfs.t) (w : World) : World :=
  mkWorld (w_store w) f (w_errno w) (w_statbuf w) (w_trace w).

Definition set_errno (e : Z) : M unit :=
  fun w => (Ret tt, mkWorld (w_store w) (w_memfs w) e (w_statbuf w) (w_trace w)).

(** [*reinterpret_cast<struct stat*>(statbuf) = st] *)
Definition write_stat (statbuf : Z) (st : stat) : M unit :=
  fun w =>
    (Ret tt,
     mkWorld (w_store w) (w_memfs w) (w_errno w)
             (<[statbuf := st]> (w_statbuf w)) (w_trace w)).

Definition store_Get (cf : Cf) (key : string) : M (option (list byte)) :=
  fun w => (Ret (Store.Get cf key (w_store w)), log (CallGet cf key) w).

Definition store_Put (cf : Cf) (key : string) (value : list byte) : M unit :=
  fun w =>
    (Ret tt,
     log (CallPut cf key value) (set_store (Store.Put cf key value (w_store w)) w)).

Definition store_Delete (cf : Cf) (key : string) : M unit :=
  fun w =>
    (Ret tt,
     log (CallDelete cf key) (set_store (Store.Delete cf key (w_store w)) w)).

Definition store_GetKeys (cf : Cf) (prefix : string) : M (list string) :=
  fun w =>
    (Ret (Store.GetKeys cf prefix (w_store w)), log (CallGetKeys cf prefix) w).

(** [O_CREAT] of [<fcntl.h>] and [ENOENT] of [<cerrno>] on Linux x86-64. *)
Definition O_CREAT : Z := 64.
Definition ENOENT : Z := 2.

(** [EEXIST] of [<cerrno>] on Linux x86-64. *)
Definition EEXIST : Z := 17.

(** The world with [errno] set by a failed library call. *)
Definition with_errno (e : Z) (w : World) : World :=
  mkWorld (w_store w) (w_memfs w) e (w_statbuf w) (w_trace w).

(** Modelled from the spec: [mkdir(dir, 0777)] on the ephemeral medium,
    its result ignored. A new folder is made; when the name is taken
    already the call fails, which leaves [EEXIST] in [errno]. *)
Definition mkdir (dir : string) : M unit :=
  fun w =>
    if Memfs.present dir (w_memfs w)
    then (Ret tt, with_errno EEXIST w)
    else
      (Ret tt,
       set_memfs (Memfs.mk ({[dir]} ∪ Memfs.dirs (w_memfs w))
                           (Memfs.files (w_memfs w))) w).

(** Modelled from the spec: [remove(path)] on the ephemeral medium, its
    result ignored: the file is gone afterwards. *)
Definition remove (path : string) : M unit :=
  fun w =>
    (Ret tt,
     set_memfs (Memfs.mk (Memfs.dirs (w_memfs w))
                         (delete path (Memfs.files (w_memfs w)))) w).

(** [ReadFile]: a failed [fopen] leaves [ENOENT] in [errno] behind the
    exception; [fread] of one item of [size] bytes reads no item from an
    empty file, so an empty file cannot be read either. *)
Definition ReadFile (path : string) : M (list byte) :=
  fun w =>
    match Memfs.files (w_memfs w) !! path with
    | None => (Throw (runtime_error "can't open file"), with_errno ENOENT w)
    | Some [] => (Throw (runtime_error "can't read file"), w)
    | Some buf => (Ret buf, w)
    end.

(** [value.value()] on a [std::optional]. *)
Definition value_ {A} (o : option A) : M A :=
  match o with
  | Some a => ret a
  | None => throw bad_optional_access
  end.

(** A [std::string] member that throws [std::out_of_range]. *)
Definition checked {A} (o : option A) : M A :=
  match o with
  | Some a => ret a
  | None => throw out_of_range
  end.

(** [for (auto& x : result) ...] with a body that may throw. *)
Fixpoint for_each {A B} (f : A -> M B) (l : list A) : M (list B) :=
  match l with
  | [] => ret []
  | x :: l' => y <- f x ;; ys <- for_each f l' ;; ret (y :: ys)
  end.

Definition GetCf (path : string) : M Cf :=
  if StrEndsWith path ".frm" then ret kCfNameFrm
  else if StrEndsWith path ".opt" then ret kCfNameDb
  else throw (runtime_error "unexpected path").

(** The column family of a path with a known extension. *)
Definition cf_of (path : string) : Cf :=
  if StrEndsWith path ".frm" then kCfNameFrm else kCfNameDb.

(** ** The handlers *)

Definition len (v : list byte) : Z := Z.of_nat (length v).

(** The string after [value.resize(n)]: the first [n] bytes, padded with
    zero bytes. *)
Definition resized (n : Z) (v : list byte) : list byte :=
  firstn (Z.to_nat n) v ++ replicate (Z.to_nat n - length v) x00.

(** [value.resize(n)]: [None] stands for the [std::length_error] thrown
    when [n > max_size()]. *)
Definition resize (n : Z) (v : list byte) : option (list byte) :=
  if Str.max_size <? n then None else Some (resized n v).

(** A [std::string] member that throws [std::length_error]. *)
Definition length_checked {A} (o : option A) : M A :=
  match o with
  | Some a => ret a
  | None => throw length_error
  end.

(** [memcpy(value.data() + offset, buf.data(), buf.size())] inside a value
    that is long enough. *)
Definition memcpy_at (offset : Z) (buf v : list byte) : list byte :=
  firstn (Z.to_nat offset) v ++ buf ++ skipn (Z.to_nat offset + length buf) v.

Definition nonempty (s : string) : bool := negb (String.eqb s "").

(** [o.has_value()] on a [std::optional]. *)
Definition has_value {A} (o : option A) : bool :=
  match o with
  | Some _ => true
  | None => false
  end.

Definition Exists (path : string) : M bool :=
  cf <- GetCf path ;;
  value <- store_Get cf path ;;
  ret (has_value value).

Section Handlers.

(** The open-file-handle collaborator of [syscall_file.h], which turns an
    accepted path into a file descriptor. *)
Variable RedirectOpenFile : string -> M Z.

Definition Dir (pathname : string) : M (list string) :=
  let path := NormalizePath pathname in
  let is_db := String.eqb path "." in
  if negb is_db && negb (regex_match path re_folder)
  then throw (invalid_argument "unexpected path")
  else
    result <- (if is_db then store_GetKeys kCfNameDb ""
               else store_GetKeys kCfNameFrm path) ;;
    if is_db
    then for_each (fun x =>
                     x1 <- checked (Str.erase_from (Str.rfind "/" x) x) ;;
                     checked (Str.erase 0 2 x1))
                  result
    else for_each (fun x =>
                     checked (Str.erase 0 (Str.wrap (Str.rfind "/" x + 1)) x))
                  result.

(** [Read] hands back the byte count and the bytes it copied to [buf]. *)
Definition Read (path : string) (count offset : Z) : M (Z * list byte) :=
  cf <- GetCf path ;;
  value <- store_Get cf path ;;
  match value with
  | None => throw (logic_error "not found")
  | Some v =>
      if len v <=? offset then ret (0, [])
      else
        let count := Z.min count (len v - offset) in
        ret (count, firstn (Z.to_nat count) (skipn (Z.to_nat offset) v))
  end.

Definition Write (path : string) (buf : list byte) (offset : Z) : M unit :=
  cf <- GetCf path ;;
  old <- store_Get cf path ;;
  let value := default [] old in
  let required_size := Str.wrap (offset + len buf) in
  if required_size <? offset
  then throw (overflow_error "write offset overflow")
  else
    value <- (if len value <? required_size
              then length_checked (resize required_size value)
              else ret value) ;;
    let value := memcpy_at offset buf value in
    store_Put cf path value.

Definition Size (path : string) : M Z :=
  cf <- GetCf path ;;
  value <- store_Get cf path ;;
  ret (len (default [] value)).

Definition Open (pathname : string) (flags : Z) : M (option Z) :=
  assert_ (nonempty pathname) ;;
  let path := NormalizePath pathname in
  if negb (IsKnownExtension path)
  then
    (* if it's a temporary frm file, make sure the directory exists *)
    (if StrEndsWith path temp_frm_ext
     then
       if negb (regex_match path re_path_to_temp_frm_file)
       then throw (invalid_argument "unexpected pathname")
       else mkdir (Str.substr 0 (Str.rfind "/" path) path)
     else ret tt) ;;
    ret None
  else if negb (regex_match path re_path_to_known_file)
  then throw (invalid_argument "unexpected pathname")
  else
    missing <- (if Z.land flags O_CREAT =? 0
                then e <- Exists path ;; ret (negb e)
                else ret false) ;;
    if missing
    then set_errno ENOENT ;; ret (Some (-1))
    else
      (* don't create .frm file if db doesn't exist *)
      no_db <- (if StrEndsWith path ".frm"
                then
                  e <- Exists
                         (Str.substr 0 (Str.wrap (Str.rfind "/" path + 1)) path
                          +:+ "db.opt") ;;
                  ret (negb e)
                else ret false) ;;
      if no_db
      then set_errno ENOENT ;; ret (Some (-1))
      else fd <- RedirectOpenFile path ;; ret (Some fd).

Definition Stat (pathname : string) (statbuf : Z) : M (option Z) :=
  assert_ (nonempty pathname) ;;
  assert_ (negb (statbuf =? 0)) ;;
  let path := pathname in
  if negb (IsKnownExtension path) then ret None
  else if negb (regex_match path re_path_to_known_file)
  then throw (invalid_argument "unexpected pathname")
  else
    cf <- GetCf path ;;
    value <- store_Get cf path ;;
    match value with
    | None => set_errno ENOENT ;; ret (Some (-1))
    | Some v => write_stat statbuf {| st_size := len v |} ;; ret (Some 0)
    end.

Definition Access (pathname : string) : M (option Z) :=
  assert_ (nonempty pathname) ;;
  let path := pathname in
  let known_ext := IsKnownExtension path in
  probe <- (if known_ext
            then
              if negb (regex_match path re_path_to_known_file)
              then
                let path := "./" +:+ path in
                if negb (regex_match path re_path_to_known_file)
                then throw (invalid_argument "unexpected pathname")
                else ret (Some path)
              else ret (Some path)
            else if regex_match path re_folder
            then
              (* It might be a db folder. Check if db.opt exists. *)
              let path :=
                if negb (bool_decide (Str.back path = Some "/"%char))
                then path +:+ "/" else path in
              ret (Some (path +:+ "db.opt"))
            else ret None) ;;
  match probe with
  | None => ret None
  | Some path =>
      e <- Exists path ;;
      if e then ret (Some 0)
      else if negb known_ext then ret None
      else set_errno ENOENT ;; ret (Some (-1))
  end.

Definition Rename (oldpath newpath : string) : M (option Z) :=
  if StrEndsWith oldpath ".frm" && StrEndsWith newpath ".frm"
  then
    if negb (regex_match oldpath re_path_to_known_file)
    then throw (invalid_argument "unexpected oldpath")
    else if negb (regex_match newpath re_path_to_known_file)
    then throw (invalid_argument "unexpected newpath")
    else
      (* both old and new are in the store *)
      value <- store_Get kCfNameFrm oldpath ;;
      v <- value_ value ;;
      store_Put kCfNameFrm newpath v ;;
      store_Delete kCfNameFrm oldpath ;;
      ret (Some 0)
  else if StrEndsWith oldpath temp_frm_ext
  then
    if negb (regex_match newpath re_path_to_known_file)
    then throw (invalid_argument "unexpected newpath")
    else
      (* temp frm files are in memfs and should be moved into the store *)
      content <- ReadFile oldpath ;;
      store_Put kCfNameFrm newpath content ;;
      remove oldpath ;;
      ret (Some 0)
  else ret None.

Definition Unlink (pathname : string) : M (option Z) :=
  assert_ (nonempty pathname) ;;
  let path := pathname in
  if negb (IsKnownExtension path) then ret None
  else
    cf <- GetCf path ;;
    store_Delete cf path ;;
    ret (Some 0).

End Handlers.

(** A world whose scratch filesystem holds one temporary table file. *)
Definition world_with_temp (s : Store.t) (path : string) (content : list byte) : World :=
  mkWorld s (Memfs.mk ∅ {[path := content]}) 0 ∅ [].

(** A POSIX failure: the call returned -1 and left [code] in [errno]. *)
Definition fails_with (code : Z) (r : Res (option Z) * World) : Prop :=
  fst r = Ret (Some (-1)) /\ w_errno (snd r) = code.

(** A world with the given store and nothing else. *)
Definition world_of (s : Store.t) : World :=
  mkWorld s Memfs.empty 0 ∅ [].

(** A handle collaborator for the examples: it always hands out descriptor 3. *)
Definition redirect_fd3 (path : string) : M Z := ret 3.

Definition store1 : Store.t :=
  Store.Put kCfNameFrm "./db1/t2.frm" [x62]
    (Store.Put kCfNameFrm "./db1/t1.frm" [x61]
       (Store.Put kCfNameDb "./db2/db.opt" []
          (Store.Put kCfNameDb "./db1/db.opt" [] Store.empty))).

(** [store1] with one more [Db] key, one that has no separator. *)
Definition store_bare : Store.t := Store.Put kCfNameDb "x.opt" [] store1.


(** ** The dispatcher *)

(** [static_cast<int>(x)] of a [long]: the low 32 bits, signed. *)
Definition to_int (x : Z) : Z := (x + 2 ^ 31) mod 2 ^ 32 - 2 ^ 31.

(** The syscall numbers of [<sys/syscall.h>] on Linux x86-64. *)
Definition SYS_open : Z := 2.
Definition SYS_stat : Z := 4.
Definition SYS_access : Z := 21.
Definition SYS_rename : Z := 82.
Definition SYS_unlink : Z := 87.

Section Dispatch.

Variable RedirectOpenFile : string -> M Z.

(** The C string that an argument word points to
    ([reinterpret_cast<char*>(x)]); the words that stand for paths are
    pointers to strings, as the dispatch contract has it. *)
Variable c_str : Z -> string.

Definition Syscall (number x1 x2 : Z) : M (option Z) :=
  if number =? SYS_open then Open RedirectOpenFile (c_str x1) (to_int x2)
  else if number =? SYS_stat then Stat (c_str x1) x2
  else if number =? SYS_access then Access (c_str x1)
  else if number =? SYS_rename then Rename (c_str x1) (c_str x2)
  else if number =? SYS_unlink then Unlink (c_str x1)
  else ret None.

End Dispatch.

(** ** The shape of the keys the handlers put in the store *)

(** Every [Db] key is the [db.opt] of a database, and every [Frm] key is a
    path of the known-file grammar. *)
Definition store_wf (s : Store.t) : Prop :=
  (forall k, is_Some (Store.Get kCfNameDb k s) ->
             exists d, is_segment d = true /\ k = "./" +:+ d +:+ "/db.opt") /\
  (forall k, is_Some (Store.Get kCfNameFrm k s) ->
             regex_match k re_path_to_known_file = true).

(** One step of a handler: unfold the sequencing and reduce the matches
    that a known result decides. *)
Ltac run :=
  unfold bind, ret, throw, assert_, set_errno, write_stat;
  cbn beta iota; cbn [negb andb orb fst snd has_value].

(** * Properties *)


(** ** Strings *)

Module StrFacts.

Lemma app_cons a s t : String a s +:+ t = String a (s +:+ t).
Proof. reflexivity. Qed.

Lemma app_nil_l t : "" +:+ t = t.
Proof. reflexivity. Qed.

Lemma app_nil_r s : s +:+ "" = s.
Proof. induction s as [|a s IH]; [reflexivity|]. rewrite app_cons, IH. reflexivity. Qed.

Lemma app_assoc s t u : (s +:+ t) +:+ u = s +:+ (t +:+ u).
Proof.
  induction s as [|a s IH]; [reflexivity|].
  rewrite !app_cons, IH. reflexivity.
Qed.

Lemma length_app s t :
  String.length (s +:+ t) = (String.length s + String.length t)%nat.
Proof.
  induction s as [|a s IH]; [reflexivity|].
  rewrite app_cons. simpl. rewrite IH. reflexivity.
Qed.

Lemma substring_whole s : substring 0 (String.length s) s = s.
Proof. induction s as [|a s IH]; [reflexivity|]. simpl. rewrite IH. reflexivity. Qed.

Lemma substring_drop s t n :
  substring (String.length s) n (s +:+ t) = substring 0 n t.
Proof.
  induction s as [|a s IH]; [reflexivity|].
  rewrite app_cons. simpl. exact IH.
Qed.

Lemma substring_take s t :
  substring 0 (String.length s) (s +:+ t) = s.
Proof.
  induction s as [|a s IH]; [destruct t; reflexivity|].
  rewrite app_cons. simpl. rewrite IH. reflexivity.
Qed.

(** A string that ends with [suffix] by construction is seen to. *)
Lemma StrEndsWith_app s suffix : StrEndsWith (s +:+ suffix) suffix = true.
Proof.
  unfold StrEndsWith. rewrite length_app.
  replace (String.length s + String.length suffix - String.length suffix)%nat
    with (String.length s) by lia.
  rewrite substring_drop, substring_whole, String.eqb_refl.
  rewrite andb_true_r. apply Nat.leb_le. lia.
Qed.

(** And a string seen to end with [suffix] is built that way. *)
Lemma StrEndsWith_inv s suffix :
  StrEndsWith s suffix = true -> exists s0, s = s0 +:+ suffix.
Proof.
  unfold StrEndsWith. intros H.
  apply andb_prop in H as [Hlen Heq].
  apply Nat.leb_le in Hlen. apply String.eqb_eq in Heq.
  revert Hlen Heq.
  generalize (String.length suffix) as n. intros n. revert n.
  induction s as [|a s IH]; intros n Hlen Heq.
  - simpl in Hlen. assert (n = 0)%nat as -> by lia.
    simpl in Heq. subst suffix. exists "". reflexivity.
  - simpl in Hlen.
    destruct (decide (n = S (String.length s))) as [->|Hne].
    + replace (String.length (String a s) - S (String.length s))%nat with 0%nat in Heq
        by (simpl; lia).
      change (S (String.length s)) with (String.length (String a s)) in Heq.
      rewrite substring_whole in Heq. subst suffix. exists "". reflexivity.
    + replace (String.length (String a s) - n)%nat
        with (S (String.length s - n)) in Heq by (simpl; lia).
      simpl in Heq.
      destruct (IH n ltac:(lia) Heq) as [s0 ->].
      exists (String a s0). reflexivity.
Qed.

End StrFacts.

(** ** The matcher decides the language *)

Module RegexFacts.
Import StrFacts.

Lemma app_eq_nil s t : s +:+ t = "" -> s = "" /\ t = "".
Proof. destruct s; [auto|discriminate]. Qed.

Lemma nullable_matches r : nullable r = true -> matches r "".
Proof.
  induction r as [| | c | cs | r1 IH1 r2 IH2 | r1 IH1 r2 IH2 | r IH];
    simpl; intros H; try discriminate.
  - constructor.
  - apply andb_prop in H as [H1 H2].
    change "" with ("" +:+ ""). constructor; auto.
  - apply orb_prop in H as [H|H]; [apply m_alt_l|apply m_alt_r]; auto.
  - constructor.
Qed.

Lemma matches_nullable r : matches r "" -> nullable r = true.
Proof.
  intros H. remember "" as s eqn:E.
  induction H; simpl; try discriminate; auto.
  - apply app_eq_nil in E as [-> ->]. rewrite IHmatches1, IHmatches2; auto.
  - rewrite IHmatches; auto.
  - rewrite IHmatches; auto. apply orb_true_r.
Qed.

Lemma deriv_matches a r s : matches (deriv a r) s -> matches r (String a s).
Proof.
  revert s.
  induction r as [| | c | cs | r1 IH1 r2 IH2 | r1 IH1 r2 IH2 | r IH];
    simpl; intros s H.
  - inversion H.
  - inversion H.
  - destruct (Ascii.eqb a c) eqn:E; [|inversion H].
    apply Ascii.eqb_eq in E. subst c. inversion H; subst. constructor.
  - destruct (in_class a cs) eqn:E; [inversion H|].
    inversion H; subst. constructor. exact E.
  - destruct (nullable r1) eqn:N.
    + inversion H as [| | | | ? ? ? HL | ? ? ? HR | |]; subst.
      * inversion HL; subst. rewrite <- app_cons. constructor; auto.
      * rewrite <- (app_nil_l (String a s)).
        constructor; [apply nullable_matches|]; auto.
    + inversion H; subst. rewrite <- app_cons. constructor; auto.
  - inversion H; subst; [apply m_alt_l|apply m_alt_r]; auto.
  - inversion H; subst. rewrite <- app_cons. apply m_star_cons; auto.
Qed.

Lemma matches_deriv a r s : matches r (String a s) -> matches (deriv a r) s.
Proof.
  intros H. remember (String a s) as w eqn:E. revert a s E.
  induction H as [ | c | cs b Hb | r1 r2 s1 s2 H1 IH1 H2 IH2
                 | r1 r2 s0 H1 IH1 | r1 r2 s0 H2 IH2 | r
                 | r s1 s2 H1 IH1 H2 IH2 ];
    intros a s E; simpl.
  - discriminate.
  - injection E as -> <-. rewrite Ascii.eqb_refl. constructor.
  - injection E as -> <-. rewrite Hb. constructor.
  - destruct s1 as [|a1 s1].
    + rewrite app_nil_l in E. subst s2.
      rewrite (matches_nullable _ H1). apply m_alt_r. apply IH2. reflexivity.
    + rewrite app_cons in E. injection E as -> <-.
      assert (matches (Cat (deriv a r1) r2) (s1 +:+ s2)) as HC
        by (constructor; [apply IH1; reflexivity | exact H2]).
      destruct (nullable r1); [apply m_alt_l|]; exact HC.
  - apply m_alt_l. apply IH1. exact E.
  - apply m_alt_r. apply IH2. exact E.
  - discriminate.
  - destruct s1 as [|a1 s1].
    + rewrite app_nil_l in E. apply (IH2 a s E).
    + rewrite app_cons in E. injection E as -> <-.
      constructor; [apply IH1; reflexivity | exact H2].
Qed.

Theorem regex_match_spec s r : regex_match s r = true <-> matches r s.
Proof.
  revert r. induction s as [|a s IH]; intros r; simpl.
  - split; [apply nullable_matches | apply matches_nullable].
  - rewrite IH. split; [apply deriv_matches | apply matches_deriv].
Qed.

End RegexFacts.

(** ** What the three grammars accept *)

Module Grammar.
Import StrFacts RegexFacts.

Lemma cat_inv r1 r2 s :
  matches (Cat r1 r2) s <->
  exists s1 s2, s = s1 +:+ s2 /\ matches r1 s1 /\ matches r2 s2.
Proof.
  split.
  - intros H. inversion H; subst. eauto.
  - intros (s1 & s2 & -> & H1 & H2). constructor; auto.
Qed.

Lemma alt_inv r1 r2 s : matches (Alt r1 r2) s <-> matches r1 s \/ matches r2 s.
Proof.
  split.
  - intros H. inversion H; subst; auto.
  - intros [H|H]; [apply m_alt_l|apply m_alt_r]; auto.
Qed.

Lemma chr_inv c s : matches (Chr c) s <-> s = String c "".
Proof.
  split.
  - intros H. inversion H; subst; auto.
  - intros ->. constructor.
Qed.

Lemma eps_inv s : matches Eps s <-> s = "".
Proof.
  split.
  - intros H. inversion H; subst; auto.
  - intros ->. constructor.
Qed.

Lemma Lits_inv l s : matches (Lits l) s <-> s = l.
Proof.
  revert s. induction l as [|c l IH]; intros s; simpl.
  - apply eps_inv.
  - rewrite cat_inv. split.
    + intros (s1 & s2 & -> & H1 & H2).
      apply chr_inv in H1 as ->. apply IH in H2 as ->. reflexivity.
    + intros ->. exists (String c ""), l. repeat split.
      * constructor.
      * apply IH. reflexivity.
Qed.

Lemma contains_app c s t :
  Str.contains c (s +:+ t) = Str.contains c s || Str.contains c t.
Proof.
  induction s as [|a s IH]; [reflexivity|].
  rewrite app_cons. simpl. rewrite IH. apply orb_assoc.
Qed.

Lemma plain_cons a s :
  plain (String a s) = negb (in_class a ["."%char; "/"%char]) && plain s.
Proof.
  unfold plain, in_class. simpl.
  destruct (Ascii.eqb a "."), (Ascii.eqb a "/"), (Str.contains "." s),
    (Str.contains "/" s); reflexivity.
Qed.

Lemma star_plain s :
  matches (Star (NoneOf ["."%char; "/"%char])) s <-> plain s = true.
Proof.
  split.
  - intros H. remember (Star (NoneOf ["."%char; "/"%char])) as r eqn:E.
    induction H; try discriminate.
    + reflexivity.
    + injection E as ->.
      inversion H; subst. rewrite app_cons, app_nil_l, plain_cons.
      rewrite IHmatches2 by reflexivity.
      match goal with Hc : in_class _ _ = false |- _ => rewrite Hc end.
      reflexivity.
  - induction s as [|a s IH]; intros H.
    + constructor.
    + rewrite plain_cons in H. apply andb_prop in H as [Ha Hs].
      change (String a s) with (String a "" +:+ s).
      apply m_star_cons; [|auto].
      constructor. destruct (in_class a _); [discriminate|reflexivity].
Qed.

Lemma segment_spec d : matches segment d <-> is_segment d = true.
Proof.
  unfold segment, Plus, is_segment. rewrite cat_inv. split.
  - intros (s1 & s2 & -> & H1 & H2).
    inversion H1; subst. apply star_plain in H2.
    rewrite app_cons, app_nil_l.
    assert (plain (String a s2) = true) as Hp.
    { rewrite plain_cons, H2.
      match goal with Hc : in_class _ _ = false |- _ => rewrite Hc end.
      reflexivity. }
    unfold plain in Hp. rewrite <- andb_assoc, Hp. reflexivity.
  - intros H. destruct d as [|a d]; [discriminate|].
    apply andb_prop in H as [H H3]. apply andb_prop in H as [_ H2].
    assert (plain (String a d) = true) as H
      by (unfold plain; rewrite H2, H3; reflexivity).
    rewrite plain_cons in H. apply andb_prop in H as [Ha Hd].
    exists (String a ""), d. repeat split.
    + constructor. destruct (in_class a _); [discriminate|reflexivity].
    + apply star_plain. exact Hd.
Qed.

(** [re_path_to_known_file] accepts exactly [./<db>/db.opt] and
    [./<db>/<table>.frm]. *)
Theorem known_file_spec p :
  regex_match p re_path_to_known_file = true <->
  exists d f,
    p = "./" +:+ d +:+ "/" +:+ f /\ is_segment d = true /\
    (f = "db.opt" \/ exists t, is_segment t = true /\ f = t +:+ ".frm").
Proof.
  rewrite regex_match_spec. unfold re_path_to_known_file. split.
  - intros H.
    apply cat_inv in H as (s1 & s2 & -> & H1 & H).
    apply Lits_inv in H1 as ->.
    apply cat_inv in H as (d & s3 & -> & Hd & H).
    apply cat_inv in H as (s4 & f & -> & H4 & H).
    apply chr_inv in H4 as ->.
    exists d, f. split; [reflexivity|]. split; [apply segment_spec; exact Hd|].
    apply alt_inv in H as [H|H].
    + left. apply Lits_inv in H. exact H.
    + right. apply cat_inv in H as (t & s5 & -> & Ht & H).
      apply Lits_inv in H as ->. exists t. split; [apply segment_spec|]; auto.
  - intros (d & f & -> & Hd & Hf).
    apply cat_inv. exists "./", (d +:+ "/" +:+ f).
    split; [reflexivity|]. split; [apply Lits_inv; reflexivity|].
    apply cat_inv. exists d, ("/" +:+ f).
    split; [reflexivity|]. split; [apply segment_spec; exact Hd|].
    apply cat_inv. exists "/", f.
    split; [reflexivity|]. split; [constructor|].
    apply alt_inv. destruct Hf as [->|(t & Ht & ->)].
    + left. apply Lits_inv. reflexivity.
    + right. apply cat_inv. exists t, ".frm".
      split; [reflexivity|]. split; [apply segment_spec; exact Ht|].
      apply Lits_inv. reflexivity.
Qed.

(** [re_folder] accepts exactly [./<db>] and [./<db>/]. *)
Theorem folder_spec p :
  regex_match p re_folder = true <->
  exists d, is_segment d = true /\ (p = "./" +:+ d \/ p = "./" +:+ d +:+ "/").
Proof.
  rewrite regex_match_spec. unfold re_folder, Opt. split.
  - intros H.
    apply cat_inv in H as (s1 & s2 & -> & H1 & H).
    apply Lits_inv in H1 as ->.
    apply cat_inv in H as (d & s3 & -> & Hd & H).
    exists d. split; [apply segment_spec; exact Hd|].
    apply alt_inv in H as [H|H].
    + right. apply chr_inv in H as ->. reflexivity.
    + left. apply eps_inv in H as ->. rewrite app_nil_r. reflexivity.
  - intros (d & Hd & Hp).
    apply cat_inv. exists "./".
    destruct Hp as [->| ->].
    + exists (d +:+ ""). rewrite app_nil_r at 1.
      split; [reflexivity|]. split; [apply Lits_inv; reflexivity|].
      apply cat_inv. exists d, "".
      split; [reflexivity|]. split; [apply segment_spec; exact Hd|].
      apply m_alt_r. constructor.
    + exists (d +:+ "/").
      split; [reflexivity|]. split; [apply Lits_inv; reflexivity|].
      apply cat_inv. exists d, "/".
      split; [reflexivity|]. split; [apply segment_spec; exact Hd|].
      apply m_alt_l. constructor.
Qed.

End Grammar.

(** ** Paths *)

Module PathFacts.
Import StrFacts Grammar.

Lemma rfind_from_none c s i :
  Str.contains c s = false -> Str.rfind_from c s i = None.
Proof.
  revert i. induction s as [|a s IH]; intros i H; [reflexivity|].
  simpl in H. apply orb_false_elim in H as [Ha Hs].
  simpl. rewrite (IH _ Hs), Ha. reflexivity.
Qed.

Lemma rfind_from_last c s f i :
  Str.contains c f = false ->
  Str.rfind_from c (s +:+ String c f) i = Some (i + String.length s)%nat.
Proof.
  intros Hf. revert i. induction s as [|a s IH]; intros i.
  - rewrite app_nil_l. simpl.
    rewrite (rfind_from_none _ _ _ Hf), Ascii.eqb_refl. f_equal. lia.
  - rewrite app_cons. simpl. rewrite IH. f_equal. lia.
Qed.

(** The last separator of [dir/file] is the one before [file]. *)
Lemma rfind_last dir file :
  Str.contains "/" file = false ->
  Str.rfind "/" (dir +:+ "/" +:+ file) = Str.size dir.
Proof.
  intros Hf. unfold Str.rfind.
  change ("/" +:+ file) with (String "/" file).
  rewrite (rfind_from_last _ _ _ _ Hf). reflexivity.
Qed.

Lemma size_app s t : Str.size (s +:+ t) = Str.size s + Str.size t.
Proof. unfold Str.size. rewrite length_app. lia. Qed.

Lemma size_nonneg s : 0 <= Str.size s.
Proof. unfold Str.size. lia. Qed.

Lemma substr_prefix s t : Str.substr 0 (Str.size s) (s +:+ t) = s.
Proof.
  unfold Str.substr. rewrite size_app.
  pose proof (size_nonneg t).
  replace (Z.min (Str.size s) (Str.size s + Str.size t - 0)) with (Str.size s) by lia.
  unfold Str.size. rewrite Nat2Z.id. apply substring_take.
Qed.

Lemma substr_empty s : Str.substr 0 0 s = "".
Proof.
  unfold Str.substr. pose proof (size_nonneg s).
  rewrite Z.min_l by lia. destruct s; reflexivity.
Qed.

Lemma substr_from_suffix s t : Str.substr_from (Str.size s) (s +:+ t) = t.
Proof.
  unfold Str.substr_from, Str.size. rewrite Nat2Z.id, length_app.
  replace (String.length s + String.length t - String.length s)%nat
    with (String.length t) by lia.
  rewrite substring_drop. apply substring_whole.
Qed.

(** [NormalizePath] on the absolute form. *)
Lemma NormalizePath_data rest :
  NormalizePath ("/data/" +:+ rest) =
  if String.eqb rest "" then "." else "./" +:+ rest.
Proof.
  unfold NormalizePath.
  rewrite substr_prefix, substr_from_suffix, String.eqb_refl. simpl negb. cbv iota.
  destruct rest as [|a rest]; reflexivity.
Qed.

(** [NormalizePath] leaves the relative form alone. *)
Lemma NormalizePath_relative s : NormalizePath (String "." s) = String "." s.
Proof.
  unfold NormalizePath, Str.substr. change (Z.to_nat 0) with 0%nat.
  generalize (Z.to_nat (Z.min (Str.size "/data/") (Str.size (String "." s) - 0))).
  intros [|n]; reflexivity.
Qed.

Lemma NormalizePath_idem rest :
  NormalizePath (NormalizePath ("/data/" +:+ rest)) = NormalizePath ("/data/" +:+ rest).
Proof.
  rewrite NormalizePath_data.
  destruct (String.eqb rest ""); [reflexivity|apply NormalizePath_relative].
Qed.

(** A path of the known-file grammar has a known extension, is not empty
    and is already relative. *)
Lemma known_file_ext p :
  regex_match p re_path_to_known_file = true -> IsKnownExtension p = true.
Proof.
  intros H. apply known_file_spec in H as (d & f & -> & _ & Hf).
  unfold IsKnownExtension. destruct Hf as [->|(t & _ & ->)].
  - replace ("./" +:+ d +:+ "/" +:+ "db.opt") with (("./" +:+ d +:+ "/db") +:+ ".opt")
      by (rewrite !app_assoc; reflexivity).
    rewrite (StrEndsWith_app _ ".opt"). apply orb_true_r.
  - replace ("./" +:+ d +:+ "/" +:+ t +:+ ".frm") with (("./" +:+ d +:+ "/" +:+ t) +:+ ".frm")
      by (rewrite !app_assoc; reflexivity).
    rewrite (StrEndsWith_app _ ".frm"). reflexivity.
Qed.

Lemma known_file_nonempty p :
  regex_match p re_path_to_known_file = true -> nonempty p = true.
Proof. intros H. apply known_file_spec in H as (d & f & -> & _). reflexivity. Qed.

Lemma known_file_normal p :
  regex_match p re_path_to_known_file = true -> NormalizePath p = p.
Proof.
  intros H. apply known_file_spec in H as (d & f & -> & _).
  apply NormalizePath_relative.
Qed.

Lemma app_same_length a b x y :
  String.length x = String.length y -> a +:+ x = b +:+ y -> a = b /\ x = y.
Proof.
  intros Hl. revert b. induction a as [|c a IH]; intros [|c' b] H.
  - rewrite !app_nil_l in H. auto.
  - apply (f_equal String.length) in H. rewrite app_nil_l, length_app in H.
    simpl in H. lia.
  - apply (f_equal String.length) in H. rewrite app_nil_l, length_app in H.
    simpl in H. lia.
  - rewrite !app_cons in H. injection H as -> H.
    destruct (IH _ H) as [-> ->]. auto.
Qed.

Lemma ends_opt_not_frm s : StrEndsWith (s +:+ ".opt") ".frm" = false.
Proof.
  destruct (StrEndsWith (s +:+ ".opt") ".frm") eqn:E; [|reflexivity].
  apply StrEndsWith_inv in E as [s0 E].
  apply app_same_length in E as [_ E]; [discriminate|reflexivity].
Qed.

(** [string(path, 0, path.rfind('/') + 1)] of [dir/file] is [dir/]. *)
Lemma parent_of dir file :
  Str.contains "/" file = false ->
  Str.representable (dir +:+ "/" +:+ file) ->
  Str.substr 0 (Str.wrap (Str.rfind "/" (dir +:+ "/" +:+ file) + 1))
             (dir +:+ "/" +:+ file) = dir +:+ "/".
Proof.
  intros Hf Hr. rewrite (rfind_last _ _ Hf).
  unfold Str.representable, Str.size_max in Hr. rewrite !size_app in Hr.
  pose proof (size_nonneg dir). pose proof (size_nonneg file).
  change (Str.size "/") with 1 in Hr.
  unfold Str.wrap. rewrite Z.mod_small by lia.
  replace (Str.size dir + 1) with (Str.size (dir +:+ "/"))
    by (rewrite size_app; reflexivity).
  rewrite <- app_assoc. apply substr_prefix.
Qed.

Lemma segment_no_slash t : is_segment t = true -> Str.contains "/" t = false.
Proof.
  unfold is_segment. intros H. apply andb_prop in H as [_ H].
  destruct (Str.contains "/" t); [discriminate|reflexivity].
Qed.

End PathFacts.

(** ** The store *)

Module StoreFacts.

Lemma Get_Put_eq cf key v s : Store.Get cf key (Store.Put cf key v s) = Some v.
Proof. destruct cf; unfold Store.Get, Store.Put; simpl; apply lookup_insert_eq. Qed.

Lemma Get_Put_ne cf key v cf' key' s :
  cf <> cf' \/ key <> key' ->
  Store.Get cf' key' (Store.Put cf key v s) = Store.Get cf' key' s.
Proof.
  intros H. destruct cf, cf'; unfold Store.Get, Store.Put; simpl;
    try reflexivity; apply lookup_insert_ne; destruct H; congruence.
Qed.

Lemma Get_Delete_eq cf key s : Store.Get cf key (Store.Delete cf key s) = None.
Proof. destruct cf; unfold Store.Get, Store.Delete; simpl; apply lookup_delete_eq. Qed.

Lemma Get_Delete_ne cf key cf' key' s :
  cf <> cf' \/ key <> key' ->
  Store.Get cf' key' (Store.Delete cf key s) = Store.Get cf' key' s.
Proof.
  intros H. destruct cf, cf'; unfold Store.Get, Store.Delete; simpl;
    try reflexivity; apply lookup_delete_ne; destruct H; congruence.
Qed.

Lemma w_store_log c w : w_store (log c w) = w_store w.
Proof. reflexivity. Qed.

Lemma GetCf_known p w :
  IsKnownExtension p = true -> GetCf p w = (Ret (cf_of p), w).
Proof.
  unfold IsKnownExtension, GetCf, cf_of. intros H.
  destruct (StrEndsWith p ".frm"); [reflexivity|].
  simpl in H. rewrite H. reflexivity.
Qed.

End StoreFacts.

(** ** Normalization (C1) *)

Section Normalization.
Import PathFacts.

Variable RedirectOpenFile : string -> M Z.

(** C1, as amended: [Open] is the one intercepted handler that normalizes.
    For every raw path under the data root [/data/], the path it classifies
    is the relative form ([.] for the root itself, [./<rest>] otherwise), and
    its result on the absolute form is its result on that relative form. *)
Theorem Open_normalizes rest flags w :
  NormalizePath ("/data/" +:+ rest) =
    (if String.eqb rest "" then "." else "./" +:+ rest) /\
  Open RedirectOpenFile ("/data/" +:+ rest) flags w =
    Open RedirectOpenFile (NormalizePath ("/data/" +:+ rest)) flags w.
Proof.
  split; [apply NormalizePath_data|].
  unfold Open. rewrite NormalizePath_idem.
  assert (nonempty (NormalizePath ("/data/" +:+ rest)) = true) as ->.
  { rewrite NormalizePath_data. destruct (String.eqb rest ""); reflexivity. }
  reflexivity.
Qed.

(** [Dir] normalizes as well. *)
Lemma Dir_normalizes rest w :
  Dir ("/data/" +:+ rest) w = Dir (NormalizePath ("/data/" +:+ rest)) w.
Proof. unfold Dir. rewrite NormalizePath_idem. reflexivity. Qed.

End Normalization.

(** C1, as stated, fails: [Stat], [Access], [Rename] and [Unlink] take the
    path as it comes. With [./db1/db.opt] and [./db1/t1.frm] in the store,
    the absolute forms are rejected by the grammar ([Stat], [Access],
    [Rename]) or name another key ([Unlink], which leaves the entry of the
    relative form in place), while the relative forms are served. *)
Lemma handlers_do_not_normalize :
  let w := world_of store1 in
  NormalizePath "/data/db1/db.opt" = "./db1/db.opt" /\
  NormalizePath "/data/db1/t1.frm" = "./db1/t1.frm" /\
  (fst (Stat "/data/db1/db.opt" 8 w) = Throw (invalid_argument "unexpected pathname") /\
   fst (Stat "./db1/db.opt" 8 w) = Ret (Some 0)) /\
  (fst (Access "/data/db1/db.opt" w) = Throw (invalid_argument "unexpected pathname") /\
   fst (Access "./db1/db.opt" w) = Ret (Some 0)) /\
  (fst (Rename "/data/db1/t1.frm" "/data/db1/t3.frm" w) =
     Throw (invalid_argument "unexpected oldpath") /\
   fst (Rename "./db1/t1.frm" "./db1/t3.frm" w) = Ret (Some 0)) /\
  (Store.Get kCfNameFrm "./db1/t1.frm"
     (w_store (snd (Unlink "/data/db1/t1.frm" w))) = Some [x61] /\
   Store.Get kCfNameFrm "./db1/t1.frm"
     (w_store (snd (Unlink "./db1/t1.frm" w))) = None) /\
  Stat "/data/db1/db.opt" 8 w <> Stat (NormalizePath "/data/db1/db.opt") 8 w.
Proof.
  repeat split; try (vm_compute; reflexivity).
  intros H. apply (f_equal fst) in H. vm_compute in H. discriminate.
Qed.

(** ** Rename between two [.frm] entries (C2, C10) *)

Section RenameFrm.
Import StoreFacts.

Variables oldpath newpath : string.
Hypothesis old_frm : StrEndsWith oldpath ".frm" = true.
Hypothesis new_frm : StrEndsWith newpath ".frm" = true.
Hypothesis old_known : regex_match oldpath re_path_to_known_file = true.
Hypothesis new_known : regex_match newpath re_path_to_known_file = true.

(** What the [.frm] to [.frm] branch does on either state of the old key. *)
Lemma Rename_frm_run w :
  Rename oldpath newpath w =
  match Store.Get kCfNameFrm oldpath (w_store w) with
  | Some v =>
      (Ret (Some 0),
       log (CallDelete kCfNameFrm oldpath)
         (set_store
            (Store.Delete kCfNameFrm oldpath
               (Store.Put kCfNameFrm newpath v (w_store w)))
            (log (CallPut kCfNameFrm newpath v)
               (set_store (Store.Put kCfNameFrm newpath v (w_store w))
                  (log (CallGet kCfNameFrm oldpath) w)))))
  | None => (Throw bad_optional_access, log (CallGet kCfNameFrm oldpath) w)
  end.
Proof.
  unfold Rename. rewrite old_frm, new_frm, old_known, new_known. simpl.
  unfold bind, store_Get. destruct (Store.Get kCfNameFrm oldpath (w_store w)); reflexivity.
Qed.

(** C2, as amended: for two different [.frm] paths of the known-file
    grammar, with a value stored under the old one, [Rename] returns 0, the
    old key is then absent and the new key holds that value; the store saw,
    in this order, the lookup of the old key, the write of the new key and
    the deletion of the old key. *)
Theorem Rename_frm_moves v w :
  oldpath <> newpath ->
  Store.Get kCfNameFrm oldpath (w_store w) = Some v ->
  exists w',
    Rename oldpath newpath w = (Ret (Some 0), w') /\
    Store.Get kCfNameFrm oldpath (w_store w') = None /\
    Store.Get kCfNameFrm newpath (w_store w') = Some v /\
    w_trace w' =
      (w_trace w ++ [CallGet kCfNameFrm oldpath;
                     CallPut kCfNameFrm newpath v;
                     CallDelete kCfNameFrm oldpath])%list.
Proof.
  intros Hne Hget. rewrite Rename_frm_run, Hget.
  eexists. split; [reflexivity|].
  unfold log, set_store. cbn [w_store w_trace]. repeat split.
  - apply Get_Delete_eq.
  - rewrite Get_Delete_ne by (right; exact Hne). apply Get_Put_eq.
  - rewrite <- !app_assoc. reflexivity.
Qed.

(** C10: with no value under the old key, [Rename] throws (the
    [bad_optional_access] of [value.value()]) after the lookup alone: no
    [Put] and no [Delete] reached the store, which is as it was, so the new
    key holds what it held. *)
Theorem Rename_frm_missing w :
  Store.Get kCfNameFrm oldpath (w_store w) = None ->
  fst (Rename oldpath newpath w) = Throw bad_optional_access /\
  w_store (snd (Rename oldpath newpath w)) = w_store w /\
  Store.Get kCfNameFrm newpath (w_store (snd (Rename oldpath newpath w))) =
    Store.Get kCfNameFrm newpath (w_store w) /\
  w_trace (snd (Rename oldpath newpath w)) =
    (w_trace w ++ [CallGet kCfNameFrm oldpath])%list.
Proof.
  intros Hget. rewrite Rename_frm_run, Hget. repeat split.
Qed.

End RenameFrm.

Lemma Rename_frm_moves_witness :
  exists w',
    Rename "./db1/t1.frm" "./db1/t9.frm" (world_of store1) = (Ret (Some 0), w') /\
    Store.Get kCfNameFrm "./db1/t1.frm" (w_store w') = None /\
    Store.Get kCfNameFrm "./db1/t9.frm" (w_store w') = Some [x61] /\
    w_trace w' =
      [CallGet kCfNameFrm "./db1/t1.frm";
       CallPut kCfNameFrm "./db1/t9.frm" [x61];
       CallDelete kCfNameFrm "./db1/t1.frm"].
Proof.
  apply (Rename_frm_moves "./db1/t1.frm" "./db1/t9.frm");
    [reflexivity | reflexivity | reflexivity | reflexivity | discriminate
    | vm_compute; reflexivity].
Defined.

Lemma Rename_frm_missing_witness :
  fst (Rename "./db1/t7.frm" "./db1/t9.frm" (world_of store1)) = Throw bad_optional_access /\
  w_store (snd (Rename "./db1/t7.frm" "./db1/t9.frm" (world_of store1))) = store1 /\
  Store.Get kCfNameFrm "./db1/t9.frm"
    (w_store (snd (Rename "./db1/t7.frm" "./db1/t9.frm" (world_of store1)))) =
    Store.Get kCfNameFrm "./db1/t9.frm" store1 /\
  w_trace (snd (Rename "./db1/t7.frm" "./db1/t9.frm" (world_of store1))) =
    [CallGet kCfNameFrm "./db1/t7.frm"].
Proof.
  apply (Rename_frm_missing "./db1/t7.frm" "./db1/t9.frm");
    [reflexivity | reflexivity | reflexivity | reflexivity | vm_compute; reflexivity].
Defined.

(** C2, as stated, fails at [a = b]: renaming a stored [.frm] path onto
    itself returns 0 and leaves no entry, so the entry for [b] is not the
    value that [a] held. *)
Lemma Rename_onto_itself :
  let a := "./db1/t1.frm" in
  let w := world_of store1 in
  Store.Get kCfNameFrm a (w_store w) = Some [x61] /\
  fst (Rename a a w) = Ret (Some 0) /\
  Store.Get kCfNameFrm a (w_store (snd (Rename a a w))) = None /\
  ~ (forall a b w w',
       StrEndsWith a ".frm" = true -> StrEndsWith b ".frm" = true ->
       regex_match a re_path_to_known_file = true ->
       regex_match b re_path_to_known_file = true ->
       Rename a b w = (Ret (Some 0), w') ->
       Store.Get kCfNameFrm a (w_store w') = None /\
       Store.Get kCfNameFrm b (w_store w') = Store.Get kCfNameFrm a (w_store w)).
Proof.
  repeat split; try (vm_compute; reflexivity).
  intros H.
  destruct (H "./db1/t1.frm" "./db1/t1.frm" (world_of store1)
              (snd (Rename "./db1/t1.frm" "./db1/t1.frm" (world_of store1))))
    as [Hold Hnew]; try reflexivity.
  rewrite Hold in Hnew. vm_compute in Hnew. discriminate.
Qed.

(** ** Open on a known file (C3) *)

Section OpenKnownFile.
Import StrFacts Grammar PathFacts StoreFacts.

Variable RedirectOpenFile : string -> M Z.

Lemma Exists_run p w :
  IsKnownExtension p = true ->
  Exists p w =
  (Ret (has_value (Store.Get (cf_of p) p (w_store w))),
   log (CallGet (cf_of p) p) w).
Proof.
  intros H. unfold Exists, bind. rewrite (GetCf_known _ _ H). reflexivity.
Qed.

(** [Open] on a path of the known-file grammar, after the classification. *)
Lemma Open_known_run p flags w :
  regex_match p re_path_to_known_file = true ->
  Open RedirectOpenFile p flags w =
  (missing <- (if Z.land flags O_CREAT =? 0
               then e <- Exists p ;; ret (negb e)
               else ret false) ;;
   if missing
   then set_errno ENOENT ;; ret (Some (-1))
   else
     no_db <- (if StrEndsWith p ".frm"
               then
                 e <- Exists
                        (Str.substr 0 (Str.wrap (Str.rfind "/" p + 1)) p
                         +:+ "db.opt") ;;
                 ret (negb e)
               else ret false) ;;
     if no_db
     then set_errno ENOENT ;; ret (Some (-1))
     else fd <- RedirectOpenFile p ;; ret (Some fd)) w.
Proof.
  intros H. unfold Open.
  rewrite (known_file_normal _ H), (known_file_nonempty _ H),
    (known_file_ext _ H), H.
  reflexivity.
Qed.

Lemma table_path_facts d t :
  is_segment d = true -> is_segment t = true ->
  let p := "./" +:+ d +:+ "/" +:+ t +:+ ".frm" in
  regex_match p re_path_to_known_file = true /\
  StrEndsWith p ".frm" = true /\
  (Str.representable p ->
   Str.substr 0 (Str.wrap (Str.rfind "/" p + 1)) p +:+ "db.opt" =
   "./" +:+ d +:+ "/db.opt") /\
  IsKnownExtension ("./" +:+ d +:+ "/db.opt") = true /\
  cf_of ("./" +:+ d +:+ "/db.opt") = kCfNameDb /\
  cf_of p = kCfNameFrm.
Proof.
  intros Hd Ht p.
  assert (StrEndsWith p ".frm" = true) as Hfrm.
  { unfold p.
    replace ("./" +:+ d +:+ "/" +:+ t +:+ ".frm")
      with (("./" +:+ d +:+ "/" +:+ t) +:+ ".frm")
      by (rewrite !app_assoc; reflexivity).
    apply StrEndsWith_app. }
  assert ("./" +:+ d +:+ "/db.opt" = ("./" +:+ d +:+ "/db") +:+ ".opt") as Hopt
    by (rewrite !app_assoc; reflexivity).
  repeat split.
  - apply known_file_spec. exists d, (t +:+ ".frm").
    split; [reflexivity|]. split; [exact Hd|]. right. exists t. auto.
  - exact Hfrm.
  - intros Hr. unfold p in *.
    replace ("./" +:+ d +:+ "/" +:+ t +:+ ".frm")
      with (("./" +:+ d) +:+ "/" +:+ (t +:+ ".frm")) in *
      by (rewrite !app_assoc; reflexivity).
    rewrite parent_of; [rewrite !app_assoc; reflexivity| |exact Hr].
    rewrite contains_app, (segment_no_slash _ Ht). reflexivity.
  - unfold IsKnownExtension. rewrite Hopt, (StrEndsWith_app _ ".opt").
    apply orb_true_r.
  - unfold cf_of. rewrite Hopt, ends_opt_not_frm. reflexivity.
  - unfold cf_of. rewrite Hfrm. reflexivity.
Qed.

(** C3: [Open] on a path of the known-file grammar fails with ENOENT when
    the creation flag is absent and the store has no entry for the path;
    on a table file [./<db>/<table>.frm] it fails with ENOENT, whatever the
    flags, when [./<db>/db.opt] is absent from the store; and once that
    entry exists (and the first test passed: creation requested, or the
    table's own entry there) it succeeds, handing the path to the
    open-file-handle collaborator with the store untouched. *)
Theorem Open_known_file flags w :
  (forall p,
     regex_match p re_path_to_known_file = true ->
     Z.land flags O_CREAT = 0 ->
     Store.Get (cf_of p) p (w_store w) = None ->
     fails_with ENOENT (Open RedirectOpenFile p flags w)) /\
  (forall d t,
     is_segment d = true -> is_segment t = true ->
     let p := "./" +:+ d +:+ "/" +:+ t +:+ ".frm" in
     let db_opt := "./" +:+ d +:+ "/db.opt" in
     Str.representable p ->
     (Store.Get kCfNameDb db_opt (w_store w) = None ->
      fails_with ENOENT (Open RedirectOpenFile p flags w)) /\
     (is_Some (Store.Get kCfNameDb db_opt (w_store w)) ->
      Z.land flags O_CREAT <> 0 \/ is_Some (Store.Get kCfNameFrm p (w_store w)) ->
      exists w',
        Open RedirectOpenFile p flags w =
          (fd <- RedirectOpenFile p ;; ret (Some fd)) w' /\
        w_store w' = w_store w /\ w_errno w' = w_errno w)).
Proof.
  split.
  - intros p Hp Hflags Hget.
    rewrite (Open_known_run _ _ _ Hp), Hflags. simpl (0 =? 0).
    run. rewrite (Exists_run _ _ (known_file_ext _ Hp)), Hget.
    split; reflexivity.
  - intros d t Hd Ht p db_opt Hr.
    destruct (table_path_facts d t Hd Ht) as (Hp & Hfrm & Hparent & Hext & Hcf & Hcfp).
    fold p in Hp, Hfrm, Hparent, Hcfp. fold db_opt in Hparent, Hext, Hcf.
    specialize (Hparent Hr).
    rewrite (Open_known_run _ _ _ Hp), Hfrm, Hparent.
    split.
    + intros Hget.
      destruct (Z.land flags O_CREAT =? 0); run.
      * rewrite (Exists_run _ _ (known_file_ext _ Hp)).
        destruct (has_value (Store.Get (cf_of p) p (w_store w)));
          run; [|split; reflexivity].
        rewrite (Exists_run _ _ Hext), Hcf, w_store_log, Hget.
        split; reflexivity.
      * rewrite (Exists_run _ _ Hext), Hcf, Hget. split; reflexivity.
    + intros [o Hdb] Hfirst.
      destruct (Z.land flags O_CREAT =? 0) eqn:Hflags; run.
      * apply Z.eqb_eq in Hflags.
        destruct Hfirst as [Hfirst|[v Hfirst]]; [contradiction|].
        rewrite (Exists_run _ _ (known_file_ext _ Hp)), Hcfp, Hfirst. run.
        rewrite (Exists_run _ _ Hext), Hcf, w_store_log, Hdb. run.
        eexists. split; [reflexivity|]. split; reflexivity.
      * rewrite (Exists_run _ _ Hext), Hcf, Hdb. run.
        eexists. split; [reflexivity|]. split; reflexivity.
Qed.

End OpenKnownFile.

Lemma Open_known_file_witness :
  fails_with ENOENT (Open redirect_fd3 "./db1/t3.frm" 0 (world_of store1)) /\
  fails_with ENOENT (Open redirect_fd3 "./db3/t1.frm" O_CREAT (world_of store1)) /\
  fst (Open redirect_fd3 "./db1/t3.frm" O_CREAT (world_of store1)) = Ret (Some 3).
Proof.
  destruct (Open_known_file redirect_fd3 0 (world_of store1)) as [H1 _].
  destruct (Open_known_file redirect_fd3 O_CREAT (world_of store1)) as [_ H2].
  split; [|split].
  - apply H1; reflexivity.
  - apply (H2 "db3" "t1"); [reflexivity | reflexivity | vm_compute; discriminate | reflexivity].
  - destruct (H2 "db1" "t3") as [_ H3];
      [reflexivity | reflexivity | vm_compute; discriminate |].
    destruct H3 as (w' & E & _);
      [exists []; reflexivity | left; discriminate |].
    change (fst (Open redirect_fd3 ("./" +:+ "db1" +:+ "/" +:+ "t3" +:+ ".frm")
                   O_CREAT (world_of store1)) = Ret (Some 3)).
    rewrite E. reflexivity.
Defined.

(** ** Unlink, then Stat and Access (C7) *)

Section UnlinkThenProbe.
Import PathFacts StoreFacts.

(** C7, as amended: for every path of the known-file grammar, [Unlink]
    returns 0, and after it [Stat] (into any buffer) and [Access] fail with
    ENOENT. *)
Theorem Unlink_then_ENOENT p statbuf w :
  regex_match p re_path_to_known_file = true ->
  statbuf <> 0 ->
  exists w1,
    Unlink p w = (Ret (Some 0), w1) /\
    fails_with ENOENT (Stat p statbuf w1) /\
    fails_with ENOENT (Access p w1).
Proof.
  intros Hp Hbuf.
  pose proof (known_file_ext _ Hp) as Hext.
  pose proof (known_file_nonempty _ Hp) as Hne.
  assert (forall w0, Store.Get (cf_of p) p
            (w_store (log (CallDelete (cf_of p) p)
               (set_store (Store.Delete (cf_of p) p (w_store w0)) w0))) = None)
    as Hgone by (intros w0; apply Get_Delete_eq).
  eexists. split; [|split].
  - unfold Unlink. rewrite Hne, Hext. run.
    rewrite (GetCf_known _ _ Hext). unfold store_Delete. reflexivity.
  - unfold Stat. rewrite Hne, Hext, Hp.
    apply Z.eqb_neq in Hbuf. rewrite Hbuf. run.
    rewrite (GetCf_known _ _ Hext). unfold store_Get. rewrite Hgone.
    split; reflexivity.
  - unfold Access. rewrite Hne, Hext, Hp. run.
    unfold Exists. run.
    rewrite (GetCf_known _ _ Hext). unfold store_Get. rewrite Hgone.
    split; reflexivity.
Qed.

End UnlinkThenProbe.

Lemma Unlink_then_ENOENT_witness :
  exists w1,
    Unlink "./db1/t1.frm" (world_of store1) = (Ret (Some 0), w1) /\
    fails_with ENOENT (Stat "./db1/t1.frm" 8 w1) /\
    fails_with ENOENT (Access "./db1/t1.frm" w1).
Proof.
  apply (Unlink_then_ENOENT "./db1/t1.frm" 8 (world_of store1));
    [reflexivity | discriminate].
Defined.

(** C7, as stated, fails: on a path without a known extension [Unlink],
    [Stat] and [Access] all answer "not applicable", and on a [.frm] path
    outside the grammar [Unlink] returns 0 while [Stat] throws. *)
Lemma Unlink_then_not_ENOENT :
  let w := world_of store1 in
  (fst (Unlink "./db1/notes.txt" w) = Ret None /\
   Stat "./db1/notes.txt" 8 (snd (Unlink "./db1/notes.txt" w)) =
     (Ret None, snd (Unlink "./db1/notes.txt" w)) /\
   Access "./db1/notes.txt" (snd (Unlink "./db1/notes.txt" w)) =
     (Ret None, snd (Unlink "./db1/notes.txt" w))) /\
  (fst (Unlink "./db1/sub/t1.frm" w) = Ret (Some 0) /\
   fst (Stat "./db1/sub/t1.frm" 8 (snd (Unlink "./db1/sub/t1.frm" w))) =
     Throw (invalid_argument "unexpected pathname")) /\
  ~ (forall p statbuf w1,
       statbuf <> 0 -> w1 = snd (Unlink p w) ->
       fails_with ENOENT (Stat p statbuf w1) /\ fails_with ENOENT (Access p w1)).
Proof.
  split; [repeat split|split; [split; reflexivity|]].
  intros H.
  destruct (H "./db1/notes.txt" 8 _ ltac:(discriminate) eq_refl) as [[Hstat _] _].
  vm_compute in Hstat. discriminate.
Qed.

(** ** Read and Size of an absent entry (C9) *)

Section AbsentEntry.
Import StoreFacts.

(** C9: on a known-extension path with no entry in the store, [Read]
    throws "not found" for every count and offset, while [Size] returns 0. *)
Theorem Read_throws_Size_zero p w :
  IsKnownExtension p = true ->
  Store.Get (cf_of p) p (w_store w) = None ->
  (forall count offset,
     fst (Read p count offset w) = Throw (logic_error "not found")) /\
  fst (Size p w) = Ret 0.
Proof.
  intros Hext Hget. split; [intros count offset|].
  - unfold Read. run. rewrite (GetCf_known _ _ Hext).
    unfold store_Get. rewrite Hget. reflexivity.
  - unfold Size. run. rewrite (GetCf_known _ _ Hext).
    unfold store_Get. rewrite Hget. reflexivity.
Qed.

End AbsentEntry.

Lemma Read_throws_Size_zero_witness :
  (forall count offset,
     fst (Read "./db1/t7.frm" count offset (world_of store1)) =
       Throw (logic_error "not found")) /\
  fst (Size "./db1/t7.frm" (world_of store1)) = Ret 0.
Proof.
  apply (Read_throws_Size_zero "./db1/t7.frm" (world_of store1)); reflexivity.
Defined.

(** ** Write, and Read after it (C4, C5, C6) *)

Section WriteRead.
Import StoreFacts.

Variable p : string.
Hypothesis known : IsKnownExtension p = true.

(** [Write] after the column family is resolved and the old value fetched. *)
Lemma Write_run buf offset w :
  Write p buf offset w =
  let old := default [] (Store.Get (cf_of p) p (w_store w)) in
  let required_size := Str.wrap (offset + len buf) in
  if required_size <? offset
  then (Throw (overflow_error "write offset overflow"),
        log (CallGet (cf_of p) p) w)
  else if (len old <? required_size) && (Str.max_size <? required_size)
  then (Throw length_error, log (CallGet (cf_of p) p) w)
  else
    store_Put (cf_of p) p
      (memcpy_at offset buf
         (if len old <? required_size then resized required_size old else old))
      (log (CallGet (cf_of p) p) w).
Proof.
  unfold Write. run. rewrite (GetCf_known _ _ known). unfold store_Get.
  cbv zeta. destruct (_ <? offset); [reflexivity|].
  unfold resize, length_checked.
  destruct (len _ <? _); [|reflexivity].
  destruct (Str.max_size <? _); reflexivity.
Qed.

Lemma wrap_small offset buf :
  0 <= offset -> offset + len buf <= Str.size_max ->
  Str.wrap (offset + len buf) = offset + len buf.
Proof.
  intros H0 H. unfold Str.wrap, Str.size_max, len in *.
  apply Z.mod_small. lia.
Qed.

Lemma max_size_fits : Str.max_size <= Str.size_max.
Proof. vm_compute. discriminate. Qed.

(** A [Write] whose extent fits [size_t], by whether [resize] is asked for
    more than a string can hold. *)
Lemma Write_no_overflow_run buf offset w :
  0 <= offset -> offset + len buf <= Str.size_max ->
  Write p buf offset w =
  let old := default [] (Store.Get (cf_of p) p (w_store w)) in
  if (len old <? offset + len buf) && (Str.max_size <? offset + len buf)
  then (Throw length_error, log (CallGet (cf_of p) p) w)
  else
    store_Put (cf_of p) p
      (memcpy_at offset buf
         (if len old <? offset + len buf
          then resized (offset + len buf) old else old))
      (log (CallGet (cf_of p) p) w).
Proof.
  intros H0 Hfit. rewrite Write_run. cbv zeta.
  rewrite wrap_small by assumption.
  assert (0 <= len buf) by (unfold len; lia).
  destruct (Z.ltb_spec (offset + len buf) offset); [lia|reflexivity].
Qed.

(** The same when the extent is one a string can have, or the value is
    long enough already: [Write] stores. *)
Lemma Write_stores_run buf offset w :
  0 <= offset -> offset + len buf <= Str.size_max ->
  offset + len buf <= Str.max_size \/
  offset + len buf <= len (default [] (Store.Get (cf_of p) p (w_store w))) ->
  Write p buf offset w =
  store_Put (cf_of p) p
    (memcpy_at offset buf
       (if len (default [] (Store.Get (cf_of p) p (w_store w)))
           <? offset + len buf
        then resized (offset + len buf)
                     (default [] (Store.Get (cf_of p) p (w_store w)))
        else default [] (Store.Get (cf_of p) p (w_store w))))
    (log (CallGet (cf_of p) p) w).
Proof.
  intros H0 Hfit Hok. rewrite (Write_no_overflow_run _ _ _ H0 Hfit). cbv zeta.
  destruct (Z.ltb_spec (len (default [] (Store.Get (cf_of p) p (w_store w))))
              (offset + len buf)) as [Hlt|Hge]; [|reflexivity].
  destruct (Z.ltb_spec Str.max_size (offset + len buf)) as [Hbig|_];
    [|reflexivity].
  destruct Hok; lia.
Qed.

(** And when it is not: [resize] throws and nothing is stored. *)
Lemma Write_too_long_run buf offset w :
  0 <= offset -> offset + len buf <= Str.size_max ->
  Str.max_size < offset + len buf ->
  len (default [] (Store.Get (cf_of p) p (w_store w))) < offset + len buf ->
  Write p buf offset w = (Throw length_error, log (CallGet (cf_of p) p) w).
Proof.
  intros H0 Hfit Hbig Hshort.
  rewrite (Write_no_overflow_run _ _ _ H0 Hfit). cbv zeta.
  destruct (Z.ltb_spec (len (default [] (Store.Get (cf_of p) p (w_store w))))
              (offset + len buf)); [|lia].
  destruct (Z.ltb_spec Str.max_size (offset + len buf)); [reflexivity|lia].
Qed.

(** The value a write leaves, when the offset is at or past the old end:
    the old bytes, zeros up to the offset, then the data. *)
Lemma written_past_end (old buf : list byte) offset :
  len old <= offset ->
  memcpy_at offset buf
    (if len old <? offset + len buf then resized (offset + len buf) old else old)
  = (old ++ replicate (Z.to_nat offset - length old) x00 ++ buf)%list.
Proof.
  unfold len, memcpy_at, resized. intros Hle.
  destruct (Z.ltb_spec (Z.of_nat (length old)) (offset + Z.of_nat (length buf)))
    as [Hlt|Hge].
  - rewrite (take_ge old) by lia.
    rewrite take_app, (take_ge old) by lia.
    rewrite take_replicate.
    rewrite drop_ge by (rewrite length_app, length_replicate; lia).
    rewrite app_nil_r, <- app_assoc. do 3 f_equal. lia.
  - assert (length buf = 0%nat) as Hb by lia.
    apply nil_length_inv in Hb. subst buf. simpl length in *.
    replace (Z.to_nat offset) with (length old) by lia.
    rewrite Nat.add_0_r, Nat.sub_diag, firstn_all, drop_all. reflexivity.
Qed.

(** The value a write leaves, when the offset is inside the old value: the
    bytes before the offset, the data, and the old bytes past the data. *)
Lemma written_inside (old buf : list byte) offset :
  0 <= offset <= len old ->
  memcpy_at offset buf
    (if len old <? offset + len buf then resized (offset + len buf) old else old)
  = (take (Z.to_nat offset) old ++ buf
     ++ drop (Z.to_nat offset + length buf) old)%list.
Proof.
  unfold len, memcpy_at, resized. intros Hle.
  destruct (Z.ltb_spec (Z.of_nat (length old)) (offset + Z.of_nat (length buf)))
    as [Hlt|Hge]; [|reflexivity].
  rewrite (take_ge old) by lia.
  rewrite take_app_le by lia.
  rewrite drop_ge by (rewrite length_app, length_replicate; lia).
  rewrite (drop_ge old) by lia. reflexivity.
Qed.

(** Either way the value has the length of the larger extent and carries
    the data at the offset. *)
Lemma written_value (old buf : list byte) offset :
  0 <= offset ->
  let v := memcpy_at offset buf
             (if len old <? offset + len buf
              then resized (offset + len buf) old else old) in
  len v = Z.max (len old) (offset + len buf) /\
  take (length buf) (drop (Z.to_nat offset) v) = buf.
Proof.
  intros H0 v. subst v.
  destruct (Z.le_gt_cases (len old) offset) as [Hpast|Hin].
  - rewrite written_past_end by exact Hpast. unfold len in *. split.
    + rewrite !length_app, length_replicate. lia.
    + rewrite app_assoc, drop_app_length'
        by (rewrite length_app, length_replicate; lia).
      rewrite firstn_all. reflexivity.
  - rewrite written_inside by lia. unfold len in *. split.
    + rewrite !length_app, length_take, length_drop. lia.
    + rewrite drop_app_length' by (rewrite length_take; lia).
      apply take_app_length.
Qed.

(** C6, as amended: on a known-extension path, with the offset and the data
    size in [size_t], [Write] throws the overflow error exactly when
    [offset + len(data)] exceeds the largest [size_t]. Otherwise, when
    that extent is one a string can have (at most [max_size()]) or the
    stored value is that long already, it returns without error and the
    store then holds a value for the path, of the larger of the old length
    and [offset + len(data)], with the data at [offset]; and when the
    extent is beyond [max_size()], the [resize] throws
    [std::length_error] and the store is as it was. *)
Theorem Write_overflow_iff data offset w :
  0 <= offset <= Str.size_max ->
  len data <= Str.size_max ->
  (fst (Write p data offset w) = Throw (overflow_error "write offset overflow")
   <-> Str.size_max < offset + len data) /\
  (offset + len data <= Str.size_max ->
   offset + len data <= Str.max_size \/
   offset + len data <= len (default [] (Store.Get (cf_of p) p (w_store w))) ->
   fst (Write p data offset w) = Ret tt /\
   exists v,
     Store.Get (cf_of p) p (w_store (snd (Write p data offset w))) = Some v /\
     len v = Z.max (len (default [] (Store.Get (cf_of p) p (w_store w))))
                   (offset + len data) /\
     take (length data) (drop (Z.to_nat offset) v) = data) /\
  (offset + len data <= Str.size_max ->
   Str.max_size < offset + len data ->
   len (default [] (Store.Get (cf_of p) p (w_store w))) < offset + len data ->
   fst (Write p data offset w) = Throw length_error /\
   w_store (snd (Write p data offset w)) = w_store w).
Proof.
  intros Hoff Hlen.
  assert (0 <= len data) as Hd0 by (unfold len; lia).
  split; [|split].
  - destruct (Z.le_gt_cases (offset + len data) Str.size_max) as [Hfit|Hover].
    + rewrite (Write_no_overflow_run _ _ _ (proj1 Hoff) Hfit). cbv zeta.
      split; [|lia].
      destruct (_ && _); discriminate.
    + rewrite Write_run. cbv zeta.
      assert (Str.wrap (offset + len data) = offset + len data - 2 ^ 64) as ->.
      { unfold Str.wrap, Str.size_max in *.
        symmetry. apply (Z.mod_unique _ _ 1); lia. }
      unfold Str.size_max in *.
      destruct (Z.ltb_spec (offset + len data - 2 ^ 64) offset) as [_|Hge];
        [|lia].
      split; [lia | reflexivity].
  - intros Hfit Hok.
    rewrite (Write_stores_run _ _ _ (proj1 Hoff) Hfit Hok).
    split; [reflexivity|].
    eexists. split; [apply Get_Put_eq|].
    apply written_value. lia.
  - intros Hfit Hbig Hshort.
    rewrite (Write_too_long_run _ _ _ (proj1 Hoff) Hfit Hbig Hshort).
    split; reflexivity.
Qed.

(** C5, as amended: on a known-extension path, a [Write] at an offset at or
    past the end of the current value (the empty value when there is no
    entry), with [offset + len(data)] a size a string can have, returns
    without error and stores the old bytes, zero bytes up to the offset,
    and the data. *)
Theorem Write_zero_fills data offset w :
  let old := default [] (Store.Get (cf_of p) p (w_store w)) in
  len old <= offset ->
  offset + len data <= Str.max_size ->
  fst (Write p data offset w) = Ret tt /\
  Store.Get (cf_of p) p (w_store (snd (Write p data offset w))) =
    Some (old ++ replicate (Z.to_nat (offset - len old)) x00 ++ data)%list.
Proof.
  intros old Hpast Hfit.
  assert (0 <= len old) as Ho0 by (unfold len; lia).
  pose proof max_size_fits.
  rewrite Write_stores_run by (try left; lia). fold old.
  split; [reflexivity|].
  unfold store_Put. cbn [snd]. rewrite w_store_log. unfold set_store. cbn [w_store].
  rewrite Get_Put_eq, written_past_end by exact Hpast.
  repeat f_equal. unfold len in *. lia.
Qed.

(** C4: on a known-extension path, [Write] of [data] at offset 0 followed
    by [Read] of [len(data)] bytes at offset 0 copies back exactly [data]
    and returns [len(data)]. (Data of a size no string can have, were
    there any, would make the [resize] throw unless the stored value is
    longer still.) *)
Theorem Write_then_Read data w :
  len data <= Str.size_max ->
  (len data <= Str.max_size \/
   len data <= len (default [] (Store.Get (cf_of p) p (w_store w))) ->
   fst (Write p data 0 w) = Ret tt /\
   fst (Read p (len data) 0 (snd (Write p data 0 w))) = Ret (len data, data)) /\
  (Str.max_size < len data ->
   len (default [] (Store.Get (cf_of p) p (w_store w))) < len data ->
   fst (Write p data 0 w) = Throw length_error).
Proof.
  intros Hfit.
  assert (0 <= len data) as Hd0 by (unfold len; lia).
  split.
  - intros Hok.
    rewrite Write_stores_run by (try exact Hok; lia).
    split; [reflexivity|].
    unfold store_Put. cbn [snd].
    unfold Read. run. rewrite (GetCf_known _ _ known). unfold store_Get.
    rewrite w_store_log. unfold set_store. cbn [w_store].
    rewrite w_store_log, Get_Put_eq.
    set (old := default [] (Store.Get (cf_of p) p (w_store w))).
    assert (0 <= len old) as Ho0 by (unfold len; lia).
    rewrite written_inside by lia.
    change (Z.to_nat 0) with 0%nat. rewrite take_0, Nat.add_0_l.
    cbn [app].
    set (rest := drop (length data) old).
    assert (len (data ++ rest) = len data + len rest) as Hl
      by (unfold len; rewrite length_app; lia).
    assert (0 <= len rest) as Hr0 by (unfold len; lia).
    destruct (Z.leb_spec (len (data ++ rest)) 0) as [Hz|Hpos].
    + assert (length data = 0%nat) as Hd by (unfold len in *; lia).
      apply nil_length_inv in Hd. subst data. reflexivity.
    + cbn [fst]. rewrite Z.sub_0_r, Hl, Z.min_l by lia.
      rewrite drop_0. unfold len at 2. rewrite Nat2Z.id, take_app_length.
      reflexivity.
  - intros Hbig Hshort.
    rewrite Write_too_long_run by lia. reflexivity.
Qed.

End WriteRead.

(** ** Directory listings (C8) *)

Module DirFacts.
Import StrFacts Grammar PathFacts.

(** The keys listed are those of the family that start with the prefix. *)
Lemma GetKeys_spec cf prefix s k :
  k ∈ Store.GetKeys cf prefix s <->
  is_Some (Store.Get cf k s) /\ String.prefix prefix k = true.
Proof.
  unfold Store.GetKeys, Store.Get.
  rewrite list_elem_of_In, filter_In, <- list_elem_of_In, list_elem_of_fmap.
  split.
  - intros [([k' v] & -> & Hin) Hpre]. apply elem_of_map_to_list in Hin.
    split; [exists v; exact Hin | exact Hpre].
  - intros [[v Hv] Hpre]. split; [|exact Hpre].
    exists (k, v). split; [reflexivity|]. apply elem_of_map_to_list. exact Hv.
Qed.

Lemma prefix_nil k : String.prefix "" k = true.
Proof. destruct k; reflexivity. Qed.

(** A loop whose body neither throws nor touches the world on the elements
    it meets. *)
Lemma for_each_pure {A B} (f : A -> M B) (g : A -> B -> Prop) l w :
  (forall x, x ∈ l -> exists y, (forall w0, f x w0 = (Ret y, w0)) /\ g x y) ->
  exists ys, for_each f l w = (Ret ys, w) /\ Forall2 g l ys.
Proof.
  induction l as [|x l IH]; intros H.
  - exists []. split; [reflexivity|constructor].
  - destruct (H x) as (y & Hy & Hg); [left|].
    destruct IH as (ys & Hys & HF); [intros x' Hx'; apply H; right; exact Hx'|].
    exists (y :: ys). split; [|constructor; assumption].
    simpl. run. rewrite Hy, Hys. reflexivity.
Qed.

(** What [rfind] finds when the character occurs. *)
Lemma rfind_from_some c s i :
  Str.contains c s = true ->
  exists pre post,
    s = pre +:+ String c post /\ Str.contains c post = false /\
    Str.rfind_from c s i = Some (i + String.length pre)%nat.
Proof.
  revert i. induction s as [|a s IH]; intros i H; [discriminate|].
  destruct (Str.contains c s) eqn:Hs.
  - destruct (IH (S i) eq_refl) as (pre & post & -> & Hpost & Hr).
    exists (String a pre), post. split; [reflexivity|]. split; [exact Hpost|].
    simpl. rewrite Hr. f_equal. lia.
  - simpl in H. rewrite Hs, orb_false_r in H.
    apply Ascii.eqb_eq in H. subst a.
    exists "", s. split; [reflexivity|]. split; [exact Hs|].
    simpl. rewrite (rfind_from_none _ _ _ Hs), Ascii.eqb_refl. f_equal. lia.
Qed.

(** [x.erase(x.rfind('/')); x.erase(0, 2)] on [./<db>/db.opt] leaves [<db>]. *)
Lemma strip_db_opt d :
  let x := "./" +:+ d +:+ "/db.opt" in
  Str.erase_from (Str.rfind "/" x) x = Some ("./" +:+ d) /\
  Str.erase 0 2 ("./" +:+ d) = Some d.
Proof.
  intros x. split.
  - subst x.
    replace ("./" +:+ d +:+ "/db.opt") with (("./" +:+ d) +:+ "/" +:+ "db.opt")
      by (rewrite !app_assoc; reflexivity).
    rewrite rfind_last by reflexivity.
    unfold Str.erase_from. rewrite substr_prefix.
    pose proof (size_nonneg ("/" +:+ "db.opt")).
    destruct (Z.ltb_spec (Str.size (("./" +:+ d) +:+ "/" +:+ "db.opt"))
                (Str.size ("./" +:+ d))) as [Hlt|_]; [|reflexivity].
    rewrite size_app in Hlt. lia.
  - unfold Str.erase.
    pose proof (size_nonneg d). rewrite size_app.
    change (Str.size "./") with 2.
    destruct (Z.ltb_spec (2 + Str.size d) 0) as [Hlt|_]; [lia|].
    cbv zeta. rewrite Z.min_l by lia.
    change (0 + 2) with (Str.size "./").
    rewrite substr_from_suffix, substr_empty. reflexivity.
Qed.

(** [x.erase(0, x.rfind('/') + 1)] leaves what follows the last separator. *)
Lemma strip_to_basename x :
  Str.representable x -> Str.contains "/" x = true ->
  exists pre n,
    x = pre +:+ "/" +:+ n /\ Str.contains "/" n = false /\
    Str.erase 0 (Str.wrap (Str.rfind "/" x + 1)) x = Some n.
Proof.
  intros Hr Hc.
  destruct (rfind_from_some _ _ 0%nat Hc) as (pre & n & -> & Hn & Hfind).
  exists pre, n. split; [reflexivity|]. split; [exact Hn|].
  unfold Str.rfind. rewrite Hfind. simpl Nat.add.
  fold (Str.size pre).
  change (String "/" n) with ("/" +:+ n) in *.
  unfold Str.representable, Str.size_max in Hr. rewrite !size_app in Hr.
  change (Str.size "/") with 1 in Hr.
  pose proof (size_nonneg pre). pose proof (size_nonneg n).
  unfold Str.wrap. rewrite Z.mod_small by lia.
  unfold Str.erase. rewrite !size_app. change (Str.size "/") with 1.
  destruct (Z.ltb_spec (Str.size pre + (1 + Str.size n)) 0) as [Hlt|_]; [lia|].
  cbv zeta. rewrite Z.min_l by lia.
  replace (0 + (Str.size pre + 1)) with (Str.size (pre +:+ "/"))
    by (rewrite size_app; reflexivity).
  rewrite <- app_assoc, substr_from_suffix, substr_empty. reflexivity.
Qed.

(** A key under a folder path has a separator. *)
Lemma under_folder_has_slash path k :
  regex_match path re_folder = true ->
  String.prefix path k = true -> Str.contains "/" k = true.
Proof.
  intros Hf Hpre. apply folder_spec in Hf as (d & _ & Hp).
  assert (exists rest, path = String "." (String "/" rest)) as [rest ->]
    by (destruct Hp as [->| ->]; eexists; reflexivity).
  apply String.prefix_correct in Hpre.
  destruct k as [|a [|b k]]; simpl in Hpre; try discriminate.
  injection Hpre as -> -> _. reflexivity.
Qed.

End DirFacts.

Section DirListing.
Import StrFacts Grammar PathFacts DirFacts.

(** C8: [Dir] on the root placeholder, with the [Db] keys of the shape
    [./<db>/db.opt], returns for each key, in the store's order, the bare
    [<db>]; on a path of the folder grammar it returns for each [Frm] key
    that starts with the path what follows the key's last separator; on
    any other path it throws the invalid-path error and leaves the world
    alone. *)
Theorem Dir_lists pathname w :
  let path := NormalizePath pathname in
  (path = "." ->
   (forall k, k ∈ Store.GetKeys kCfNameDb "" (w_store w) ->
              exists d, k = "./" +:+ d +:+ "/db.opt") ->
   exists names,
     fst (Dir pathname w) = Ret names /\
     Forall2 (fun k n => k = "./" +:+ n +:+ "/db.opt")
             (Store.GetKeys kCfNameDb "" (w_store w)) names) /\
  (regex_match path re_folder = true ->
   (forall k, k ∈ Store.GetKeys kCfNameFrm path (w_store w) ->
              Str.representable k) ->
   exists names,
     fst (Dir pathname w) = Ret names /\
     Forall2 (fun k n => exists pre, k = pre +:+ "/" +:+ n /\
                                     Str.contains "/" n = false)
             (Store.GetKeys kCfNameFrm path (w_store w)) names) /\
  (path <> "." -> regex_match path re_folder = false ->
   Dir pathname w = (Throw (invalid_argument "unexpected path"), w)).
Proof.
  intros path. unfold Dir. fold path. split; [|split].
  - intros Hroot Hkeys. rewrite Hroot. simpl. run. unfold store_GetKeys.
    edestruct (for_each_pure
                 (fun x =>
                    x1 <- checked (Str.erase_from (Str.rfind "/" x) x) ;;
                    checked (Str.erase 0 2 x1))
                 (fun k n => k = "./" +:+ n +:+ "/db.opt")
                 (Store.GetKeys kCfNameDb "" (w_store w)))
      as (names & Hrun & HF).
    + intros k Hk. destruct (Hkeys k Hk) as [d ->].
      exists d. split; [|reflexivity]. intros w0.
      destruct (strip_db_opt d) as [H1 H2]. run. rewrite H1. cbn [checked]. run.
      rewrite H2. reflexivity.
    + exists names. split; [|exact HF]. unfold bind in Hrun. rewrite Hrun.
      reflexivity.
  - intros Hfolder Hkeys.
    assert (String.eqb path "." = false) as Hnot.
    { apply String.eqb_neq. intros E. rewrite E in Hfolder. discriminate. }
    rewrite Hnot, Hfolder. simpl. run. unfold store_GetKeys.
    edestruct (for_each_pure
                 (fun x =>
                    checked (Str.erase 0 (Str.wrap (Str.rfind "/" x + 1)) x))
                 (fun k n => exists pre, k = pre +:+ "/" +:+ n /\
                                         Str.contains "/" n = false)
                 (Store.GetKeys kCfNameFrm path (w_store w)))
      as (names & Hrun & HF).
    + intros k Hk.
      destruct (strip_to_basename k (Hkeys k Hk)) as (pre & n & Hk' & Hn & He).
      { apply GetKeys_spec in Hk as [_ Hpre].
        exact (under_folder_has_slash _ _ Hfolder Hpre). }
      exists n. split; [|exists pre; auto].
      intros w0. rewrite He. reflexivity.
    + exists names. split; [|exact HF]. rewrite Hrun. reflexivity.
  - intros Hroot Hfolder. apply String.eqb_neq in Hroot.
    rewrite Hroot, Hfolder. reflexivity.
Qed.

End DirListing.

(** ** The properties at work on a small store *)

Lemma store1_db_keys :
  Store.GetKeys kCfNameDb "" store1 = ["./db1/db.opt"; "./db2/db.opt"].
Proof. vm_compute. reflexivity. Qed.

Lemma store1_db1_tables :
  Store.GetKeys kCfNameFrm "./db1/" store1 = ["./db1/t1.frm"; "./db1/t2.frm"].
Proof. vm_compute. reflexivity. Qed.

Lemma Dir_lists_witness :
  (exists names,
     fst (Dir "." (world_of store1)) = Ret names /\
     Forall2 (fun k n => k = "./" +:+ n +:+ "/db.opt")
             (Store.GetKeys kCfNameDb "" store1) names) /\
  (exists names,
     fst (Dir "/data/db1/" (world_of store1)) = Ret names /\
     Forall2 (fun k n => exists pre, k = pre +:+ "/" +:+ n /\
                                     Str.contains "/" n = false)
             (Store.GetKeys kCfNameFrm "./db1/" store1) names) /\
  Dir "./db1/sub/" (world_of store1) =
    (Throw (invalid_argument "unexpected path"), world_of store1).
Proof.
  split; [|split].
  - apply (Dir_lists "." (world_of store1)); [reflexivity|].
    intros k Hk. change (w_store (world_of store1)) with store1 in Hk.
    rewrite store1_db_keys in Hk.
    apply elem_of_cons in Hk as [->|Hk]; [exists "db1"; reflexivity|].
    apply elem_of_cons in Hk as [->|Hk]; [exists "db2"; reflexivity|].
    apply elem_of_nil in Hk. destruct Hk.
  - apply (Dir_lists "/data/db1/" (world_of store1)); [reflexivity|].
    intros k Hk. change (w_store (world_of store1)) with store1 in Hk.
    change (NormalizePath "/data/db1/") with "./db1/" in Hk.
    rewrite store1_db1_tables in Hk.
    apply elem_of_cons in Hk as [->|Hk]; [vm_compute; discriminate|].
    apply elem_of_cons in Hk as [->|Hk]; [vm_compute; discriminate|].
    apply elem_of_nil in Hk. destruct Hk.
  - apply (Dir_lists "./db1/sub/" (world_of store1)); [discriminate|reflexivity].
Defined.

Lemma Write_then_Read_witness :
  fst (Write "./db1/t1.frm" [x58; x59] 0 (world_of store1)) = Ret tt /\
  fst (Read "./db1/t1.frm" 2 0
         (snd (Write "./db1/t1.frm" [x58; x59] 0 (world_of store1)))) =
    Ret (2, [x58; x59]).
Proof.
  apply (Write_then_Read "./db1/t1.frm" eq_refl [x58; x59] (world_of store1)).
  - vm_compute. discriminate.
  - left. vm_compute. discriminate.
Defined.

(** [Write(p, "X", 5)] on an absent entry and on an empty one. *)
Lemma Write_zero_fills_witness :
  (fst (Write "./db1/t7.frm" [x58] 5 (world_of store1)) = Ret tt /\
   Store.Get kCfNameFrm "./db1/t7.frm"
     (w_store (snd (Write "./db1/t7.frm" [x58] 5 (world_of store1)))) =
     Some [x00; x00; x00; x00; x00; x58]) /\
  (fst (Write "./db1/db.opt" [x58] 5 (world_of store1)) = Ret tt /\
   Store.Get kCfNameDb "./db1/db.opt"
     (w_store (snd (Write "./db1/db.opt" [x58] 5 (world_of store1)))) =
     Some [x00; x00; x00; x00; x00; x58]).
Proof.
  split.
  - apply (Write_zero_fills "./db1/t7.frm" eq_refl [x58] 5 (world_of store1));
      vm_compute; discriminate.
  - apply (Write_zero_fills "./db1/db.opt" eq_refl [x58] 5 (world_of store1));
      vm_compute; discriminate.
Defined.

Lemma Write_overflow_iff_witness :
  fst (Write "./db1/t1.frm" [x58; x59] Str.size_max (world_of store1)) =
    Throw (overflow_error "write offset overflow") /\
  fst (Write "./db1/t1.frm" [x58; x59] 3 (world_of store1)) = Ret tt /\
  fst (Write "./db1/t1.frm" [x58; x59] Str.max_size (world_of store1)) =
    Throw length_error.
Proof.
  split; [|split].
  - apply (Write_overflow_iff "./db1/t1.frm" eq_refl [x58; x59] Str.size_max
             (world_of store1)); vm_compute; try split; congruence.
  - apply (Write_overflow_iff "./db1/t1.frm" eq_refl [x58; x59] 3
             (world_of store1));
      try (left; vm_compute; congruence);
      vm_compute; try split; congruence.
  - apply (Write_overflow_iff "./db1/t1.frm" eq_refl [x58; x59] Str.max_size
             (world_of store1)); vm_compute; try split; congruence.
Defined.

(** C5, as stated, fails: a [Write] of one byte at offset [max_size()] on
    an absent entry is a write past the end whose extent fits [size_t],
    yet [resize] throws [std::length_error] and nothing is stored. *)
Lemma Write_past_max_size_stores_nothing :
  let p := "./db1/t7.frm" in
  let w := world_of store1 in
  IsKnownExtension p = true /\
  Store.Get kCfNameFrm p (w_store w) = None /\
  Str.max_size + len [x58] <= Str.size_max /\
  fst (Write p [x58] Str.max_size w) = Throw length_error /\
  Store.Get kCfNameFrm p (w_store (snd (Write p [x58] Str.max_size w))) = None /\
  ~ (forall path data offset w0,
       IsKnownExtension path = true ->
       len (default [] (Store.Get (cf_of path) path (w_store w0))) <= offset ->
       offset + len data <= Str.size_max ->
       fst (Write path data offset w0) = Ret tt /\
       is_Some (Store.Get (cf_of path) path
                  (w_store (snd (Write path data offset w0))))).
Proof.
  cbv zeta.
  split; [reflexivity|]. split; [reflexivity|].
  split; [vm_compute; discriminate|].
  split; [vm_compute; reflexivity|]. split; [vm_compute; reflexivity|].
  intros H.
  destruct (H "./db1/t7.frm" [x58] Str.max_size (world_of store1)) as [Hret _].
  - reflexivity.
  - vm_compute. discriminate.
  - vm_compute. discriminate.
  - vm_compute in Hret. discriminate.
Qed.

(** C6, as stated, fails: with [offset + len(data)] above [max_size()] but
    within [size_t] there is no overflow, yet [Write] raises an error (the
    [std::length_error] of [resize]) and the entry is not updated. *)
Lemma Write_past_max_size_throws :
  let p := "./db1/t1.frm" in
  let w := world_of store1 in
  Str.max_size + len [x58; x59] <= Str.size_max /\
  fst (Write p [x58; x59] Str.max_size w) = Throw length_error /\
  Store.Get kCfNameFrm p (w_store (snd (Write p [x58; x59] Str.max_size w))) =
    Store.Get kCfNameFrm p (w_store w) /\
  ~ (forall path data offset w0,
       IsKnownExtension path = true ->
       0 <= offset <= Str.size_max -> len data <= Str.size_max ->
       offset + len data <= Str.size_max ->
       fst (Write path data offset w0) = Ret tt).
Proof.
  cbv zeta.
  split; [vm_compute; discriminate|].
  split; [vm_compute; reflexivity|]. split; [vm_compute; reflexivity|].
  intros H.
  assert (fst (Write "./db1/t1.frm" [x58; x59] Str.max_size (world_of store1))
          = Ret tt) as Hret
    by (apply H; vm_compute; try split; congruence).
  vm_compute in Hret. discriminate.
Qed.

(** ** The behaviours the design lists as testable, on [store1] *)

Example Dir_root_lists_databases :
  fst (Dir "." (world_of store1)) = Ret ["db1"; "db2"] /\
  fst (Dir "/data/" (world_of store1)) = Ret ["db1"; "db2"].
Proof. split; vm_compute; reflexivity. Qed.

Example Dir_folder_lists_tables :
  fst (Dir "./db1/" (world_of store1)) = Ret ["t1.frm"; "t2.frm"] /\
  fst (Dir "./db1" (world_of store1)) = Ret ["t1.frm"; "t2.frm"].
Proof. split; vm_compute; reflexivity. Qed.

Example nested_folder_is_rejected :
  regex_match "./db1/sub/t1.frm" re_path_to_known_file = false /\
  fst (Open redirect_fd3 "./db1/sub/t1.frm" O_CREAT (world_of store1)) =
    Throw (invalid_argument "unexpected pathname") /\
  fst (Stat "./db1/sub/t1.frm" 8 (world_of store1)) =
    Throw (invalid_argument "unexpected pathname") /\
  fst (Access "./db1/sub/t1.frm" (world_of store1)) =
    Throw (invalid_argument "unexpected pathname").
Proof. repeat split; vm_compute; reflexivity. Qed.

Example Access_probes_database :
  fst (Access "./db1" (world_of store1)) = Ret (Some 0) /\
  fst (Access "./db9/" (world_of store1)) = Ret None /\
  fst (Access "db1/t1.frm" (world_of store1)) = Ret (Some 0) /\
  fails_with ENOENT (Access "./db1/t7.frm" (world_of store1)).
Proof. repeat split; vm_compute; reflexivity. Qed.

Example Open_temp_makes_folder :
  fst (Open redirect_fd3 "/data/db1/t3.frm~" O_CREAT (world_of store1)) = Ret None /\
  Memfs.dirs (w_memfs (snd (Open redirect_fd3 "/data/db1/t3.frm~" O_CREAT
                              (world_of store1)))) = {["./db1"]}.
Proof. split; vm_compute; reflexivity. Qed.

Example Rename_promotes_temp :
  let w := world_with_temp store1 "./db1/t3.frm~" [x61; x62] in
  let w' := snd (Rename "./db1/t3.frm~" "./db1/t3.frm" w) in
  fst (Rename "./db1/t3.frm~" "./db1/t3.frm" w) = Ret (Some 0) /\
  Memfs.files (w_memfs w') !! "./db1/t3.frm~" = None /\
  fst (Read "./db1/t3.frm" 10 0 w') = Ret (2, [x61; x62]).
Proof. repeat split; vm_compute; reflexivity. Qed.

Example Stat_reports_size :
  fst (Stat "./db1/t1.frm" 8 (world_of store1)) = Ret (Some 0) /\
  w_statbuf (snd (Stat "./db1/t1.frm" 8 (world_of store1))) !! 8 =
    Some {| st_size := 1 |}.
Proof. split; vm_compute; reflexivity. Qed.

(** * Further properties of the handler code *)

(** ** Suffixes, normalization and the three grammars *)

Module PathMore.
Import StrFacts RegexFacts Grammar PathFacts.

(** X1: [StrEndsWith(str, suffix)] holds exactly when [str] is some string
    followed by [suffix]. *)
Theorem StrEndsWith_iff str suffix :
  StrEndsWith str suffix = true <-> exists s0, str = s0 +:+ suffix.
Proof.
  split; [apply StrEndsWith_inv|].
  intros [s0 ->]. apply StrEndsWith_app.
Qed.

Lemma substring_prefix_inv n p pre :
  substring 0 n p = pre -> exists rest, p = pre +:+ rest.
Proof.
  revert n pre. induction p as [|a p IH]; intros n pre H.
  - destruct n; simpl in H; subst pre; exists ""; reflexivity.
  - destruct n as [|n]; simpl in H.
    + subst pre. exists (String a p). reflexivity.
    + destruct pre as [|b pre]; [discriminate|].
      injection H as -> H. destruct (IH _ _ H) as [rest ->].
      exists rest. reflexivity.
Qed.

(** A path that passes the test of [NormalizePath] is under the data root. *)
Lemma under_data_root p :
  String.eqb (Str.substr 0 (Str.size "/data/") p) "/data/" = true ->
  exists rest, p = "/data/" +:+ rest.
Proof.
  intros H. apply String.eqb_eq in H. unfold Str.substr in H.
  exact (substring_prefix_inv _ _ _ H).
Qed.

(** X2: [NormalizePath] is idempotent on every path, and it changes a path
    exactly when the path starts with [/data/]. *)
Theorem NormalizePath_idempotent p :
  NormalizePath (NormalizePath p) = NormalizePath p /\
  (NormalizePath p <> p <-> exists rest, p = "/data/" +:+ rest).
Proof.
  destruct (String.eqb (Str.substr 0 (Str.size "/data/") p) "/data/") eqn:E.
  - destruct (under_data_root _ E) as [rest ->]. split.
    + apply NormalizePath_idem.
    + split; [intros _; exists rest; reflexivity|].
      intros _. rewrite NormalizePath_data.
      destruct (String.eqb rest ""); discriminate.
  - assert (NormalizePath p = p) as Hid
      by (unfold NormalizePath; rewrite E; reflexivity).
    split; [rewrite !Hid; reflexivity|].
    split; [intros H; contradiction|].
    intros [rest ->]. rewrite substr_prefix, String.eqb_refl in E.
    discriminate.
Qed.

Lemma temp_frm_spec p :
  regex_match p re_path_to_temp_frm_file = true <->
  exists d t,
    is_segment d = true /\ is_segment t = true /\
    p = "./" +:+ d +:+ "/" +:+ t +:+ ".frm~".
Proof.
  rewrite regex_match_spec. unfold re_path_to_temp_frm_file. split.
  - intros H.
    apply cat_inv in H as (s1 & s2 & -> & H1 & H).
    apply Lits_inv in H1 as ->.
    apply cat_inv in H as (d & s3 & -> & Hd & H).
    apply cat_inv in H as (s4 & s5 & -> & H4 & H).
    apply chr_inv in H4 as ->.
    apply cat_inv in H as (t & s6 & -> & Ht & H).
    apply Lits_inv in H as ->.
    exists d, t. repeat split; try apply segment_spec; auto.
  - intros (d & t & Hd & Ht & ->).
    apply cat_inv. exists "./", (d +:+ "/" +:+ t +:+ ".frm~").
    split; [reflexivity|]. split; [apply Lits_inv; reflexivity|].
    apply cat_inv. exists d, ("/" +:+ t +:+ ".frm~").
    split; [reflexivity|]. split; [apply segment_spec; exact Hd|].
    apply cat_inv. exists "/", (t +:+ ".frm~").
    split; [reflexivity|]. split; [constructor|].
    apply cat_inv. exists t, ".frm~".
    split; [reflexivity|]. split; [apply segment_spec; exact Ht|].
    apply Lits_inv. reflexivity.
Qed.

(** X3: what the three regular expressions accept, with [<db>] and
    [<table>] nonempty and free of [.] and [/]: [re_path_to_known_file]
    exactly [./<db>/db.opt] and [./<db>/<table>.frm], [re_folder] exactly
    [./<db>] and [./<db>/], [re_path_to_temp_frm_file] exactly
    [./<db>/<table>.frm~]. *)
Theorem grammars_accept p :
  (regex_match p re_path_to_known_file = true <->
   exists d, is_segment d = true /\
     (p = "./" +:+ d +:+ "/db.opt" \/
      exists t, is_segment t = true /\ p = "./" +:+ d +:+ "/" +:+ t +:+ ".frm")) /\
  (regex_match p re_folder = true <->
   exists d, is_segment d = true /\ (p = "./" +:+ d \/ p = "./" +:+ d +:+ "/")) /\
  (regex_match p re_path_to_temp_frm_file = true <->
   exists d t, is_segment d = true /\ is_segment t = true /\
     p = "./" +:+ d +:+ "/" +:+ t +:+ ".frm~").
Proof.
  split; [|split; [apply folder_spec | apply temp_frm_spec]].
  rewrite known_file_spec. split.
  - intros (d & f & -> & Hd & Hf). exists d. split; [exact Hd|].
    destruct Hf as [->|(t & Ht & ->)]; [left; reflexivity|].
    right. exists t. auto.
  - intros (d & Hd & [->|(t & Ht & ->)]).
    + exists d, "db.opt". auto.
    + exists d, (t +:+ ".frm"). repeat split; auto. right. exists t. auto.
Qed.

End PathMore.

(** ** The grammars sort a path into one branch *)

Module Classify.
Import StrFacts RegexFacts Grammar PathFacts PathMore.

Lemma last_char_eq s a s' b : s +:+ String a "" = s' +:+ String b "" -> a = b.
Proof.
  intros H. apply app_same_length in H as [_ H]; [|reflexivity].
  injection H as ->. reflexivity.
Qed.

Lemma not_ends_with s a suffix0 b :
  a <> b -> StrEndsWith (s +:+ String a "") (suffix0 +:+ String b "") = false.
Proof.
  intros Hab. destruct (StrEndsWith _ _) eqn:E; [|reflexivity].
  apply StrEndsWith_inv in E as [s0 E]. rewrite <- app_assoc in E.
  apply last_char_eq in E. contradiction.
Qed.

Lemma segment_no_dot d : is_segment d = true -> Str.contains "." d = false.
Proof.
  unfold is_segment. intros H. apply andb_prop in H as [H _].
  apply andb_prop in H as [_ H].
  destruct (Str.contains "." d); [discriminate|reflexivity].
Qed.

Lemma only_dot_first rest s0 suffix0 :
  Str.contains "." rest = false ->
  String "." rest = s0 +:+ String "." suffix0 -> s0 = "" /\ rest = suffix0.
Proof.
  intros Hr H. destruct s0 as [|a s0].
  - rewrite app_nil_l in H. injection H as ->. auto.
  - rewrite app_cons in H. injection H as _ H. subst rest.
    rewrite contains_app in Hr. simpl in Hr. rewrite orb_true_r in Hr.
    discriminate.
Qed.

(** A folder path ends with none of [.frm], [.opt] and [.frm~]. *)
Lemma folder_no_extension p :
  regex_match p re_folder = true ->
  StrEndsWith p ".frm" = false /\ StrEndsWith p ".opt" = false /\
  StrEndsWith p ".frm~" = false.
Proof.
  intros H. apply folder_spec in H as (d & Hd & Hp).
  assert (exists rest, p = String "." (String "/" rest) /\
                       Str.contains "." (String "/" rest) = false)
    as (rest & -> & Hdot).
  { pose proof (segment_no_dot _ Hd) as Hnd.
    destruct Hp as [->| ->]; eexists; (split; [reflexivity|]).
    - simpl. exact Hnd.
    - simpl. rewrite contains_app, Hnd. reflexivity. }
  assert (forall suffix0 c, c <> "/"%char ->
            StrEndsWith (String "." (String "/" rest))
                        (String "." (String c suffix0)) = false) as Hno.
  { intros suffix0 c Hc. destruct (StrEndsWith _ _) eqn:E; [|reflexivity].
    apply StrEndsWith_inv in E as [s0 E].
    apply (only_dot_first _ _ _ Hdot) in E as [_ E].
    injection E as E _. congruence. }
  repeat split; apply Hno; discriminate.
Qed.

(** A temporary path ends with [.frm~] and with neither known extension. *)
Lemma temp_extension p :
  regex_match p re_path_to_temp_frm_file = true ->
  StrEndsWith p ".frm~" = true /\ IsKnownExtension p = false.
Proof.
  intros H. apply temp_frm_spec in H as (d & t & _ & _ & ->).
  replace ("./" +:+ d +:+ "/" +:+ t +:+ ".frm~")
    with (("./" +:+ d +:+ "/" +:+ t) +:+ ".frm~")
    by (rewrite !app_assoc; reflexivity).
  split; [apply StrEndsWith_app|].
  unfold IsKnownExtension.
  change ".frm~" with (".frm" +:+ "~"). rewrite <- app_assoc.
  rewrite (not_ends_with _ "~" ".fr" "m"), (not_ends_with _ "~" ".op" "t")
    by discriminate.
  reflexivity.
Qed.

(** X4: no path matches two of the three grammars, and the extension tests
    agree with them: a known-file path has a known extension, a temporary
    path has the [.frm~] suffix and no known extension, and a folder path
    has neither. *)
Theorem grammars_classify p :
  (regex_match p re_path_to_known_file = true ->
   IsKnownExtension p = true /\
   regex_match p re_folder = false /\
   regex_match p re_path_to_temp_frm_file = false) /\
  (regex_match p re_path_to_temp_frm_file = true ->
   IsKnownExtension p = false /\ StrEndsWith p temp_frm_ext = true /\
   regex_match p re_folder = false) /\
  (regex_match p re_folder = true ->
   IsKnownExtension p = false /\ StrEndsWith p temp_frm_ext = false).
Proof.
  split; [|split].
  - intros H. pose proof (known_file_ext _ H) as Hext.
    split; [exact Hext|]. split.
    + destruct (regex_match p re_folder) eqn:E; [|reflexivity].
      destruct (folder_no_extension _ E) as (H1 & H2 & _).
      unfold IsKnownExtension in Hext. rewrite H1, H2 in Hext. discriminate.
    + destruct (regex_match p re_path_to_temp_frm_file) eqn:E; [|reflexivity].
      destruct (temp_extension _ E) as [_ H1]. congruence.
  - intros H. destruct (temp_extension _ H) as [H1 H2].
    split; [exact H2|]. split; [exact H1|].
    destruct (regex_match p re_folder) eqn:E; [|reflexivity].
    destruct (folder_no_extension _ E) as (_ & _ & H3). congruence.
  - intros H. destruct (folder_no_extension _ H) as (H1 & H2 & H3).
    unfold IsKnownExtension. rewrite H1, H2. auto.
Qed.

End Classify.

(** ** What the handlers leave alone *)

Module Frames.
Import StoreFacts.

(** Case analysis on every test a handler makes, each branch decided by
    computation. *)
Ltac branches :=
  repeat (cbn beta iota;
          match goal with
          | |- context [if ?b then _ else _] => destruct b
          | |- context [match ?o with Some _ => _ | None => _ end] => destruct o
          end);
  try reflexivity.

Ltac open_handler :=
  unfold Exists, checked, value_;
  unfold GetCf, store_Get, store_GetKeys, bind, ret, throw, assert_,
    set_errno, write_stat;
  cbn beta iota.

Lemma for_each_frame {A B C} (proj : World -> C) (f : A -> M B) l w :
  (forall x w0, proj (snd (f x w0)) = proj w0) ->
  proj (snd (for_each f l w)) = proj w.
Proof.
  intros Hf. revert w. induction l as [|x l IH]; intros w; [reflexivity|].
  simpl. unfold bind at 1.
  specialize (Hf x w). destruct (f x w) as [[y|e|] w1]; simpl in Hf;
    try exact Hf.
  unfold bind at 1. specialize (IH w1).
  destruct (for_each f l w1) as [[ys|e|] w2]; simpl in IH |- *; congruence.
Qed.

Lemma Dir_frame {C} (proj : World -> C) pathname w :
  (forall c w0, proj (log c w0) = proj w0) ->
  proj (snd (Dir pathname w)) = proj w.
Proof.
  intros Hlog. unfold Dir.
  destruct (negb _ && negb _); [reflexivity|].
  unfold store_GetKeys, bind at 1.
  destruct (String.eqb (NormalizePath pathname) ".").
  - rewrite for_each_frame; [apply Hlog|].
    intros x w0. open_handler. branches.
  - rewrite for_each_frame; [apply Hlog|].
    intros x w0. open_handler. branches.
Qed.

(** [Stat] and [Access] leave the store alone. *)
Lemma probes_frame pathname statbuf w :
  w_store (snd (Stat pathname statbuf w)) = w_store w /\
  w_store (snd (Access pathname w)) = w_store w.
Proof.
  split.
  - unfold Stat. open_handler. branches.
  - unfold Access. open_handler. branches.
Qed.

(** X5: [Stat], [Access], [Read], [Size] and [Dir] never change the store
    or the scratch filesystem, whatever their arguments and whatever they
    return or throw. *)
Theorem readers_change_nothing pathname statbuf count offset w :
  let unchanged (w' : World) :=
    w_store w' = w_store w /\ w_memfs w' = w_memfs w in
  unchanged (snd (Stat pathname statbuf w)) /\
  unchanged (snd (Access pathname w)) /\
  unchanged (snd (Read pathname count offset w)) /\
  unchanged (snd (Size pathname w)) /\
  unchanged (snd (Dir pathname w)).
Proof.
  intros unchanged. subst unchanged. cbv beta.
  repeat split;
    try (apply (Dir_frame w_store); reflexivity);
    try (apply (Dir_frame w_memfs); reflexivity).
  - unfold Stat. open_handler. branches.
  - unfold Stat. open_handler. branches.
  - unfold Access. open_handler. branches.
  - unfold Access. open_handler. branches.
  - unfold Read. open_handler. branches.
  - unfold Read. open_handler. branches.
  - unfold Size. open_handler. branches.
  - unfold Size. open_handler. branches.
Qed.

Section OpenFrame.

Variable RedirectOpenFile : string -> M Z.
Hypothesis redirect_keeps_store :
  forall path w, w_store (snd (RedirectOpenFile path w)) = w_store w.

(** X6: [Open] itself never writes to the store: if the open-file-handle
    collaborator leaves the store alone, so does [Open], on every path and
    with every flag. *)
Theorem Open_keeps_store pathname flags w :
  w_store (snd (Open RedirectOpenFile pathname flags w)) = w_store w.
Proof.
  unfold Open. open_handler. unfold mkdir.
  repeat (cbn beta iota;
          match goal with
          | |- context [if ?b then _ else _] => destruct b
          | |- context [match ?o with Some _ => _ | None => _ end] => destruct o
          | |- context [RedirectOpenFile ?q ?w0] =>
              let H := fresh in
              pose proof (redirect_keeps_store q w0) as H;
              destruct (RedirectOpenFile q w0) as [[?|?|] ?]; simpl in H
          end);
    try reflexivity; try assumption.
Qed.

End OpenFrame.

End Frames.

Lemma Open_keeps_store_witness :
  w_store (snd (Open redirect_fd3 "/data/db1/t3.frm" O_CREAT (world_of store1))) =
  w_store (world_of store1).
Proof.
  apply (Frames.Open_keeps_store redirect_fd3); reflexivity.
Defined.

(** ** The dispatcher *)

Section DispatchFacts.

Variable RedirectOpenFile : string -> M Z.
Variable c_str : Z -> string.

(** X7: [Syscall] intercepts five syscall numbers only: on any other number
    it answers "not intercepted" and touches nothing; and of the five, only
    [open], [rename] and [unlink] can change the store. *)
Theorem Syscall_intercepts number x1 x2 w :
  (number <> SYS_open -> number <> SYS_stat -> number <> SYS_access ->
   number <> SYS_rename -> number <> SYS_unlink ->
   Syscall RedirectOpenFile c_str number x1 x2 w = (Ret None, w)) /\
  (number <> SYS_open -> number <> SYS_rename -> number <> SYS_unlink ->
   w_store (snd (Syscall RedirectOpenFile c_str number x1 x2 w)) = w_store w).
Proof.
  unfold Syscall. split.
  - intros H1 H2 H3 H4 H5.
    apply Z.eqb_neq in H1, H2, H3, H4, H5.
    rewrite H1, H2, H3, H4, H5. reflexivity.
  - intros H1 H4 H5.
    apply Z.eqb_neq in H1, H4, H5. rewrite H1, H4, H5.
    destruct (number =? SYS_stat);
      [apply (Frames.probes_frame (c_str x1) x2 w)|].
    destruct (number =? SYS_access);
      [apply (Frames.probes_frame (c_str x1) x2 w)|].
    reflexivity.
Qed.

End DispatchFacts.

Lemma Syscall_intercepts_witness :
  Syscall redirect_fd3 (fun _ => "./db1/t1.frm") 257 100 0 (world_of store1) =
    (Ret None, world_of store1) /\
  w_store (snd (Syscall redirect_fd3 (fun _ => "./db1/t1.frm") SYS_stat 100 8
                  (world_of store1))) = store1.
Proof.
  split.
  - apply (Syscall_intercepts redirect_fd3 (fun _ => "./db1/t1.frm") 257);
      discriminate.
  - apply (Syscall_intercepts redirect_fd3 (fun _ => "./db1/t1.frm") SYS_stat);
      discriminate.
Defined.

(** ** Stat, Size and Access on a known file *)

Section KnownFileProbes.
Import StrFacts Grammar PathFacts StoreFacts PathMore.

Lemma Stat_known_run p statbuf w :
  regex_match p re_path_to_known_file = true -> statbuf <> 0 ->
  Stat p statbuf w =
  match Store.Get (cf_of p) p (w_store w) with
  | None => (set_errno ENOENT ;; ret (Some (-1))) (log (CallGet (cf_of p) p) w)
  | Some v => (write_stat statbuf {| st_size := len v |} ;; ret (Some 0))
                (log (CallGet (cf_of p) p) w)
  end.
Proof.
  intros Hp Hbuf. unfold Stat.
  rewrite (known_file_nonempty _ Hp), (known_file_ext _ Hp), Hp.
  apply Z.eqb_neq in Hbuf. rewrite Hbuf. run.
  rewrite (GetCf_known _ _ (known_file_ext _ Hp)). unfold store_Get.
  destruct (Store.Get (cf_of p) p (w_store w)); reflexivity.
Qed.

Lemma Access_known_run p w :
  regex_match p re_path_to_known_file = true ->
  Access p w =
  (if has_value (Store.Get (cf_of p) p (w_store w)) then ret (Some 0)
   else set_errno ENOENT ;; ret (Some (-1))) (log (CallGet (cf_of p) p) w).
Proof.
  intros Hp. unfold Access.
  rewrite (known_file_nonempty _ Hp), (known_file_ext _ Hp), Hp. run.
  rewrite (Exists_run _ _ (known_file_ext _ Hp)).
  destruct (has_value _); reflexivity.
Qed.

(** X8: on a path of the known-file grammar whose entry holds [v], [Stat]
    returns 0, leaves [errno] alone and writes [len v] as [st_size] into
    the caller's buffer, which is also what [Size] returns. *)
Theorem Stat_reports_Size p statbuf v w :
  regex_match p re_path_to_known_file = true ->
  statbuf <> 0 ->
  Store.Get (cf_of p) p (w_store w) = Some v ->
  fst (Stat p statbuf w) = Ret (Some 0) /\
  w_statbuf (snd (Stat p statbuf w)) !! statbuf = Some {| st_size := len v |} /\
  w_errno (snd (Stat p statbuf w)) = w_errno w /\
  fst (Size p w) = Ret (len v).
Proof.
  intros Hp Hbuf Hget. rewrite (Stat_known_run _ _ _ Hp Hbuf), Hget.
  repeat split.
  - apply lookup_insert_eq.
  - unfold Size. run. rewrite (GetCf_known _ _ (known_file_ext _ Hp)).
    unfold store_Get. rewrite Hget. reflexivity.
Qed.

(** X9: on every path of the known-file grammar [Access] and [Stat] give
    the same answer: 0 when the entry exists, and -1 with [errno = ENOENT]
    when it does not. *)
Theorem Access_agrees_with_Stat p statbuf w :
  regex_match p re_path_to_known_file = true ->
  statbuf <> 0 ->
  fst (Access p w) = fst (Stat p statbuf w) /\
  w_errno (snd (Access p w)) = w_errno (snd (Stat p statbuf w)) /\
  (fst (Access p w) = Ret (Some 0) <->
   is_Some (Store.Get (cf_of p) p (w_store w))) /\
  (fails_with ENOENT (Access p w) <->
   Store.Get (cf_of p) p (w_store w) = None).
Proof.
  intros Hp Hbuf.
  rewrite (Stat_known_run _ _ _ Hp Hbuf), (Access_known_run _ _ Hp).
  unfold fails_with.
  destruct (Store.Get (cf_of p) p (w_store w)) as [v|]; simpl; repeat split;
    try discriminate; try reflexivity; eauto.
  - intros [[=] _].
  - intros [? [=]].
Qed.

End KnownFileProbes.

Lemma Stat_reports_Size_witness :
  fst (Stat "./db1/t1.frm" 8 (world_of store1)) = Ret (Some 0) /\
  w_statbuf (snd (Stat "./db1/t1.frm" 8 (world_of store1))) !! 8 =
    Some {| st_size := 1 |} /\
  w_errno (snd (Stat "./db1/t1.frm" 8 (world_of store1))) = 0 /\
  fst (Size "./db1/t1.frm" (world_of store1)) = Ret 1.
Proof.
  apply (Stat_reports_Size "./db1/t1.frm" 8 [x61] (world_of store1));
    [reflexivity | discriminate | vm_compute; reflexivity].
Defined.

Lemma Access_agrees_with_Stat_witness :
  fst (Access "./db1/t7.frm" (world_of store1)) =
    fst (Stat "./db1/t7.frm" 8 (world_of store1)) /\
  w_errno (snd (Access "./db1/t7.frm" (world_of store1))) =
    w_errno (snd (Stat "./db1/t7.frm" 8 (world_of store1))).
Proof.
  destruct (Access_agrees_with_Stat "./db1/t7.frm" 8 (world_of store1))
    as (H1 & H2 & _); [reflexivity | discriminate |].
  split; [exact H1 | exact H2].
Defined.

(** ** Access without the relative marker, and on a folder *)

Section AccessShapes.
Import StrFacts Grammar PathFacts StoreFacts PathMore Classify.

Lemma file_name_facts f :
  (f = "db.opt" \/ exists t, is_segment t = true /\ f = t +:+ ".frm") ->
  forall pre, IsKnownExtension (pre +:+ f) = true /\
              cf_of (pre +:+ f) = cf_of f.
Proof.
  intros [->|(t & Ht & ->)] pre.
  - change "db.opt" with ("db" +:+ ".opt"). rewrite <- app_assoc.
    unfold IsKnownExtension, cf_of.
    rewrite (StrEndsWith_app _ ".opt"), ends_opt_not_frm, orb_true_r.
    split; reflexivity.
  - rewrite <- app_assoc. unfold IsKnownExtension, cf_of.
    rewrite !(StrEndsWith_app _ ".frm"). split; reflexivity.
Qed.

Lemma bare_path_not_known d f :
  is_segment d = true ->
  regex_match (d +:+ "/" +:+ f) re_path_to_known_file = false.
Proof.
  intros Hd. destruct (regex_match _ _) eqn:E; [|reflexivity].
  apply known_file_spec in E as (d' & f' & E & _).
  pose proof (segment_no_dot _ Hd) as Hdot.
  destruct d as [|a d]; [discriminate|].
  injection E as -> _. discriminate.
Qed.

(** X10: [Access] takes a file path given without the leading [./]: on
    [<db>/db.opt] and [<db>/<table>.frm] it does exactly what it does on
    the same path with [./] in front. *)
Theorem Access_adds_relative_marker d f w :
  is_segment d = true ->
  (f = "db.opt" \/ exists t, is_segment t = true /\ f = t +:+ ".frm") ->
  Access (d +:+ "/" +:+ f) w = Access ("./" +:+ d +:+ "/" +:+ f) w.
Proof.
  intros Hd Hf.
  assert (regex_match ("./" +:+ d +:+ "/" +:+ f) re_path_to_known_file = true)
    as Hp by (apply known_file_spec; exists d, f; auto).
  rewrite (Access_known_run _ _ Hp).
  unfold Access.
  assert (nonempty (d +:+ "/" +:+ f) = true) as ->
    by (destruct d; [discriminate|reflexivity]).
  destruct (file_name_facts f Hf (d +:+ "/")) as [Hext _].
  rewrite app_assoc in Hext. rewrite Hext, (bare_path_not_known _ _ Hd), Hp.
  run. rewrite (Exists_run _ _ (known_file_ext _ Hp)).
  destruct (has_value _); reflexivity.
Qed.

Lemma back_last s c : Str.back (s +:+ String c "") = Some c.
Proof.
  induction s as [|a s IH]; [reflexivity|].
  rewrite app_cons. simpl. rewrite IH.
  destruct (s +:+ String c "") eqn:E; [|reflexivity].
  destruct s; discriminate.
Qed.

Lemma back_app s t : t <> "" -> Str.back (s +:+ t) = Str.back t.
Proof.
  intros Ht. induction s as [|a s IH]; [reflexivity|].
  rewrite app_cons. simpl. rewrite IH.
  destruct (s +:+ t) eqn:E; [|reflexivity].
  destruct s; [|discriminate]. rewrite app_nil_l in E. contradiction.
Qed.

Lemma back_not_in c s :
  Str.contains c s = false -> Str.back s <> Some c.
Proof.
  induction s as [|a s IH]; [discriminate|].
  simpl. intros H. apply orb_false_elim in H as [Ha Hs].
  destruct s as [|b s].
  - intros [= ->]. rewrite Ascii.eqb_refl in Ha. discriminate.
  - apply IH. exact Hs.
Qed.

(** X11: [Access] on a database folder, with or without the trailing
    separator, looks up the database's [db.opt] in the [Db] family: it
    returns 0 when the entry exists and "not applicable" when it does not,
    never ENOENT, and changes nothing but the trace. *)
Theorem Access_probes_folder d w :
  is_segment d = true ->
  let db_opt := "./" +:+ d +:+ "/db.opt" in
  let result :=
    (Ret (if has_value (Store.Get kCfNameDb db_opt (w_store w))
          then Some 0 else None),
     log (CallGet kCfNameDb db_opt) w) in
  Access ("./" +:+ d) w = result /\ Access ("./" +:+ d +:+ "/") w = result.
Proof.
  intros Hd db_opt result. subst result.
  assert (table_ok : IsKnownExtension db_opt = true /\ cf_of db_opt = kCfNameDb).
  { destruct (file_name_facts "db.opt" (or_introl eq_refl) ("./" +:+ d +:+ "/"))
      as [H1 H2].
    replace (("./" +:+ d +:+ "/") +:+ "db.opt") with db_opt in H1, H2
      by (unfold db_opt; rewrite !app_assoc; reflexivity).
    split; [exact H1|exact H2]. }
  destruct table_ok as [Hext Hcf].
  assert (forall p, regex_match p re_folder = true ->
            (if negb (bool_decide (Str.back p = Some "/"%char))
             then p +:+ "/" else p) +:+ "db.opt" = db_opt ->
            Access p w =
            (Ret (if has_value (Store.Get kCfNameDb db_opt (w_store w))
                  then Some 0 else None),
             log (CallGet kCfNameDb db_opt) w)) as Hrun.
  { intros p Hp Hprobe. unfold Access.
    assert (IsKnownExtension p = false) as Hnk.
    { destruct (folder_no_extension _ Hp) as (H1 & H2 & _).
      unfold IsKnownExtension. rewrite H1, H2. reflexivity. }
    assert (nonempty p = true) as ->.
    { apply folder_spec in Hp as (d' & _ & [->| ->]); reflexivity. }
    rewrite Hnk, Hp. run. rewrite Hprobe.
    rewrite (Exists_run _ _ Hext), Hcf.
    destruct (has_value _); reflexivity. }
  split; apply Hrun.
  - apply folder_spec. exists d. auto.
  - rewrite bool_decide_eq_false_2.
    + simpl negb. cbv iota. rewrite !app_assoc. reflexivity.
    + rewrite back_app by (destruct d; discriminate).
      apply back_not_in. apply segment_no_slash. exact Hd.
  - apply folder_spec. exists d. auto.
  - replace ("./" +:+ d +:+ "/") with (("./" +:+ d) +:+ String "/" "")
      by (rewrite !app_assoc; reflexivity).
    rewrite bool_decide_eq_true_2 by apply back_last.
    simpl negb. cbv iota. rewrite !app_assoc. reflexivity.
Qed.

End AccessShapes.

Lemma Access_adds_relative_marker_witness :
  Access "db1/t1.frm" (world_of store1) = Access "./db1/t1.frm" (world_of store1).
Proof.
  apply (Access_adds_relative_marker "db1" "t1.frm" (world_of store1));
    [reflexivity | right; exists "t1"; split; reflexivity].
Defined.

Lemma Access_probes_folder_witness :
  fst (Access "./db1" (world_of store1)) = Ret (Some 0) /\
  fst (Access "./db9/" (world_of store1)) = Ret None.
Proof.
  destruct (Access_probes_folder "db1" (world_of store1) eq_refl) as [H1 _].
  destruct (Access_probes_folder "db9" (world_of store1) eq_refl) as [_ H2].
  split.
  - change (fst (Access ("./" +:+ "db1") (world_of store1)) = Ret (Some 0)).
    rewrite H1. reflexivity.
  - change (fst (Access ("./" +:+ "db9" +:+ "/") (world_of store1)) = Ret None).
    rewrite H2. reflexivity.
Defined.

(** ** Open on a temporary file and on a database's option file *)

Section OpenShapes.
Import StrFacts Grammar PathFacts StoreFacts PathMore Classify.

Variable RedirectOpenFile : string -> M Z.

(** X12: [Open] on a temporary table file [./<db>/<table>.frm~] is not
    intercepted and touches neither the store nor its trace, whatever the
    flags. When nothing is at [./<db>] in the scratch filesystem it makes
    that folder and leaves [errno] alone; when something is there already
    the ignored [mkdir] changes nothing but leaves [errno] at EEXIST. *)
Theorem Open_temp_makes_parent d t flags w :
  is_segment d = true -> is_segment t = true ->
  Open RedirectOpenFile ("./" +:+ d +:+ "/" +:+ t +:+ ".frm~") flags w =
  (Ret None,
   if Memfs.present ("./" +:+ d) (w_memfs w)
   then with_errno EEXIST w
   else set_memfs (Memfs.mk ({["./" +:+ d]} ∪ Memfs.dirs (w_memfs w))
                            (Memfs.files (w_memfs w))) w).
Proof.
  intros Hd Ht.
  assert (regex_match ("./" +:+ d +:+ "/" +:+ t +:+ ".frm~")
            re_path_to_temp_frm_file = true) as Hp
    by (apply temp_frm_spec; exists d, t; auto).
  destruct (temp_extension _ Hp) as [Hsuf Hnk].
  assert (NormalizePath ("./" +:+ d +:+ "/" +:+ t +:+ ".frm~") =
          "./" +:+ d +:+ "/" +:+ t +:+ ".frm~") as Hnorm
    by exact (NormalizePath_relative _).
  unfold Open. rewrite Hnorm.
  unfold temp_frm_ext. rewrite Hnk, Hsuf, Hp. run. unfold mkdir.
  replace ("./" +:+ d +:+ "/" +:+ t +:+ ".frm~")
    with (("./" +:+ d) +:+ "/" +:+ (t +:+ ".frm~"))
    by (rewrite !app_assoc; reflexivity).
  change (nonempty _) with true. cbn beta iota.
  rewrite rfind_last, substr_prefix;
    [destruct (Memfs.present _ _); reflexivity|].
  rewrite contains_app, (segment_no_slash _ Ht). reflexivity.
Qed.

(** X13: creating or opening a database's [db.opt]: with the creation flag
    [Open] hands the path to the open-file-handle collaborator without
    consulting the store at all; without it, it does so exactly when the
    entry exists and fails with ENOENT otherwise. *)
Theorem Open_db_opt d flags w :
  is_segment d = true ->
  let p := "./" +:+ d +:+ "/db.opt" in
  (Z.land flags O_CREAT <> 0 ->
   Open RedirectOpenFile p flags w =
     (fd <- RedirectOpenFile p ;; ret (Some fd)) w) /\
  (Z.land flags O_CREAT = 0 ->
   is_Some (Store.Get kCfNameDb p (w_store w)) ->
   Open RedirectOpenFile p flags w =
     (fd <- RedirectOpenFile p ;; ret (Some fd)) (log (CallGet kCfNameDb p) w)) /\
  (Z.land flags O_CREAT = 0 ->
   Store.Get kCfNameDb p (w_store w) = None ->
   fails_with ENOENT (Open RedirectOpenFile p flags w)).
Proof.
  intros Hd p.
  assert (regex_match p re_path_to_known_file = true) as Hp
    by (apply known_file_spec; exists d, "db.opt"; auto).
  assert (p = ("./" +:+ d +:+ "/db") +:+ ".opt") as Hopt
    by (unfold p; rewrite !app_assoc; reflexivity).
  assert (StrEndsWith p ".frm" = false) as Hfrm
    by (rewrite Hopt; apply ends_opt_not_frm).
  assert (cf_of p = kCfNameDb) as Hcf by (unfold cf_of; rewrite Hfrm; reflexivity).
  rewrite (Open_known_run _ _ _ _ Hp), Hfrm.
  split; [|split].
  - intros Hflag. apply Z.eqb_neq in Hflag. rewrite Hflag. reflexivity.
  - intros Hflag [v Hv]. rewrite Hflag. simpl (0 =? 0). run.
    rewrite (Exists_run _ _ (known_file_ext _ Hp)), Hcf, Hv. reflexivity.
  - intros Hflag Hv. rewrite Hflag. simpl (0 =? 0). run.
    rewrite (Exists_run _ _ (known_file_ext _ Hp)), Hcf, Hv.
    split; reflexivity.
Qed.

End OpenShapes.

(** A first temporary file of [db1] makes the folder; a second finds it
    there and leaves EEXIST behind. *)
Lemma Open_temp_makes_parent_witness :
  let w1 := snd (Open redirect_fd3 "./db1/t3.frm~" O_CREAT (world_of store1)) in
  let w2 := snd (Open redirect_fd3 "./db1/t4.frm~" O_CREAT w1) in
  Memfs.dirs (w_memfs w1) = {["./db1"]} /\ w_errno w1 = 0 /\
  Memfs.dirs (w_memfs w2) = {["./db1"]} /\ w_errno w2 = EEXIST.
Proof.
  cbv zeta.
  pose proof (Open_temp_makes_parent redirect_fd3 "db1" "t3" O_CREAT
                (world_of store1) eq_refl eq_refl) as H1.
  pose proof (Open_temp_makes_parent redirect_fd3 "db1" "t4" O_CREAT
                (snd (Open redirect_fd3 "./db1/t3.frm~" O_CREAT
                        (world_of store1))) eq_refl eq_refl) as H2.
  change ("./" +:+ "db1" +:+ "/" +:+ "t3" +:+ ".frm~")
    with "./db1/t3.frm~" in H1, H2.
  change ("./" +:+ "db1" +:+ "/" +:+ "t4" +:+ ".frm~")
    with "./db1/t4.frm~" in H2.
  rewrite H2, H1. repeat split; vm_compute; reflexivity.
Defined.

Lemma Open_db_opt_witness :
  fst (Open redirect_fd3 "./db7/db.opt" O_CREAT (world_of store1)) = Ret (Some 3) /\
  fails_with ENOENT (Open redirect_fd3 "./db7/db.opt" 0 (world_of store1)).
Proof.
  destruct (Open_db_opt redirect_fd3 "db7" O_CREAT (world_of store1) eq_refl)
    as (H1 & _ & _).
  destruct (Open_db_opt redirect_fd3 "db7" 0 (world_of store1) eq_refl)
    as (_ & _ & H3).
  split.
  - change (fst (Open redirect_fd3 ("./" +:+ "db7" +:+ "/db.opt") O_CREAT
                   (world_of store1)) = Ret (Some 3)).
    rewrite H1 by discriminate. reflexivity.
  - apply H3; reflexivity.
Defined.

(** ** Rename: promotion of a temporary file, frame and round trip *)

Section RenameMore.
Import StrFacts Grammar PathFacts StoreFacts PathMore Classify.

Lemma temp_suffix_not_frm p :
  StrEndsWith p ".frm~" = true -> StrEndsWith p ".frm" = false.
Proof.
  intros H. apply StrEndsWith_inv in H as [s0 ->].
  change ".frm~" with (".frm" +:+ "~"). rewrite <- app_assoc.
  apply (not_ends_with _ "~" ".fr" "m"). discriminate.
Qed.

(** [Rename] from a [.frm~] path to a path of the known-file grammar. *)
Lemma Rename_temp_run oldpath newpath w :
  StrEndsWith oldpath ".frm~" = true ->
  regex_match newpath re_path_to_known_file = true ->
  Rename oldpath newpath w =
  match Memfs.files (w_memfs w) !! oldpath with
  | None => (Throw (runtime_error "can't open file"), with_errno ENOENT w)
  | Some [] => (Throw (runtime_error "can't read file"), w)
  | Some content =>
      (Ret (Some 0),
       set_memfs (Memfs.mk (Memfs.dirs (w_memfs w))
                           (delete oldpath (Memfs.files (w_memfs w))))
         (log (CallPut kCfNameFrm newpath content)
            (set_store (Store.Put kCfNameFrm newpath content (w_store w)) w)))
  end.
Proof.
  intros Hold Hnew. unfold Rename.
  rewrite (temp_suffix_not_frm _ Hold). unfold temp_frm_ext.
  rewrite Hold, Hnew. simpl. unfold bind, ReadFile.
  destruct (Memfs.files (w_memfs w) !! oldpath) as [[|b content]|]; reflexivity.
Qed.

(** X14: promoting a temporary file. With a nonempty file under the
    [.frm~] path in the scratch filesystem and a new path of the known-file
    grammar, [Rename] returns 0, stores the file's content under the new
    path in the [Frm] family (whatever the new path's extension), leaves
    every other entry as it was, and removes the temporary file. *)
Theorem Rename_promotes oldpath newpath content w :
  StrEndsWith oldpath ".frm~" = true ->
  regex_match newpath re_path_to_known_file = true ->
  Memfs.files (w_memfs w) !! oldpath = Some content ->
  content <> [] ->
  exists w',
    Rename oldpath newpath w = (Ret (Some 0), w') /\
    Store.Get kCfNameFrm newpath (w_store w') = Some content /\
    (forall cf k, cf <> kCfNameFrm \/ k <> newpath ->
                  Store.Get cf k (w_store w') = Store.Get cf k (w_store w)) /\
    Memfs.files (w_memfs w') !! oldpath = None /\
    w_trace w' = (w_trace w ++ [CallPut kCfNameFrm newpath content])%list.
Proof.
  intros Hold Hnew Hfile Hne.
  rewrite (Rename_temp_run _ _ _ Hold Hnew), Hfile.
  destruct content as [|b content]; [contradiction|].
  eexists. split; [reflexivity|].
  unfold set_memfs, log, set_store. cbn [w_store w_memfs w_trace Memfs.files].
  repeat split.
  - apply Get_Put_eq.
  - intros cf k Hk. apply Get_Put_ne. destruct Hk; [left|right]; congruence.
  - apply lookup_delete_eq.
Qed.

(** X15: a temporary file that is missing or empty cannot be promoted:
    [Rename] throws ("can't open file", "can't read file") and leaves the
    store, the scratch filesystem and the trace as they were. For a
    missing file the failed [fopen] leaves [errno] at ENOENT and that is
    the only change; for an empty one nothing changes at all. *)
Theorem Rename_unreadable_temp oldpath newpath w :
  StrEndsWith oldpath ".frm~" = true ->
  regex_match newpath re_path_to_known_file = true ->
  (Memfs.files (w_memfs w) !! oldpath = None ->
   Rename oldpath newpath w =
     (Throw (runtime_error "can't open file"), with_errno ENOENT w)) /\
  (Memfs.files (w_memfs w) !! oldpath = Some [] ->
   Rename oldpath newpath w = (Throw (runtime_error "can't read file"), w)).
Proof.
  intros Hold Hnew.
  split; intros Hfile; rewrite (Rename_temp_run _ _ _ Hold Hnew), Hfile;
    reflexivity.
Qed.

(** X16: a [.frm] to [.frm] [Rename] touches the two keys it names and
    nothing else: every other entry of either family, the scratch
    filesystem and [errno] are as before. *)
Theorem Rename_frm_frame oldpath newpath w :
  StrEndsWith oldpath ".frm" = true -> StrEndsWith newpath ".frm" = true ->
  regex_match oldpath re_path_to_known_file = true ->
  regex_match newpath re_path_to_known_file = true ->
  let w' := snd (Rename oldpath newpath w) in
  (forall cf k,
     cf <> kCfNameFrm \/ (k <> oldpath /\ k <> newpath) ->
     Store.Get cf k (w_store w') = Store.Get cf k (w_store w)) /\
  w_memfs w' = w_memfs w /\ w_errno w' = w_errno w.
Proof.
  intros H1 H2 H3 H4 w'. subst w'.
  rewrite (Rename_frm_run _ _ H1 H2 H3 H4).
  destruct (Store.Get kCfNameFrm oldpath (w_store w)) as [v|];
    [|repeat split].
  unfold log, set_store. cbn [snd w_store w_memfs w_errno].
  repeat split. intros cf k Hk.
  rewrite Get_Delete_ne, Get_Put_ne; [reflexivity| |];
    destruct Hk as [Hk|[Hk1 Hk2]]; try (left; congruence);
    right; congruence.
Qed.

Lemma w_store_set s w : w_store (set_store s w) = s.
Proof. reflexivity. Qed.

Lemma move_back (m : gmap string (list byte)) a b v :
  a <> b -> m !! a = Some v -> m !! b = None ->
  delete b (<[a := v]> (delete a (<[b := v]> m))) = m.
Proof.
  intros Hab Ha Hb. apply map_eq. intros k.
  destruct (decide (k = b)) as [->|Hkb].
  - rewrite lookup_delete_eq. symmetry. exact Hb.
  - rewrite lookup_delete_ne by congruence.
    destruct (decide (k = a)) as [->|Hka].
    + rewrite lookup_insert_eq. symmetry. exact Ha.
    + rewrite lookup_insert_ne, lookup_delete_ne, lookup_insert_ne by congruence.
      reflexivity.
Qed.

(** X17: renaming a table file to a free name and back restores the store:
    for two different [.frm] paths of the known-file grammar, the first
    stored and the second absent, [Rename a b] followed by [Rename b a]
    both return 0 and leave exactly the store there was. *)
Theorem Rename_there_and_back a b v w :
  StrEndsWith a ".frm" = true -> StrEndsWith b ".frm" = true ->
  regex_match a re_path_to_known_file = true ->
  regex_match b re_path_to_known_file = true ->
  a <> b ->
  Store.Get kCfNameFrm a (w_store w) = Some v ->
  Store.Get kCfNameFrm b (w_store w) = None ->
  let w1 := snd (Rename a b w) in
  fst (Rename a b w) = Ret (Some 0) /\
  fst (Rename b a w1) = Ret (Some 0) /\
  w_store (snd (Rename b a w1)) = w_store w.
Proof.
  intros Ha Hb Hka Hkb Hab Hget Hfree w1. subst w1.
  rewrite (Rename_frm_run _ _ Ha Hb Hka Hkb), Hget.
  split; [reflexivity|]. cbn [snd].
  rewrite (Rename_frm_run _ _ Hb Ha Hkb Hka).
  rewrite !w_store_log, !w_store_set.
  rewrite Get_Delete_ne, Get_Put_eq by (right; congruence).
  split; [reflexivity|].
  cbn [snd]. rewrite !w_store_log, !w_store_set.
  destruct (w_store w) as [db frm]. unfold Store.Get in Hget, Hfree.
  simpl in Hget, Hfree. unfold Store.Delete, Store.Put. simpl. f_equal.
  apply move_back; assumption.
Qed.

End RenameMore.

Lemma Rename_promotes_witness :
  exists w',
    Rename "./db1/t3.frm~" "./db1/t3.frm"
           (world_with_temp store1 "./db1/t3.frm~" [x61; x62]) =
      (Ret (Some 0), w') /\
    Store.Get kCfNameFrm "./db1/t3.frm" (w_store w') = Some [x61; x62] /\
    Memfs.files (w_memfs w') !! "./db1/t3.frm~" = None.
Proof.
  destruct (Rename_promotes "./db1/t3.frm~" "./db1/t3.frm" [x61; x62]
              (world_with_temp store1 "./db1/t3.frm~" [x61; x62]))
    as (w' & H1 & H2 & _ & H3 & _);
    [reflexivity | reflexivity | vm_compute; reflexivity | discriminate |].
  exists w'. split; [exact H1|]. split; [exact H2|exact H3].
Defined.

Lemma Rename_unreadable_temp_witness :
  Rename "./db1/t3.frm~" "./db1/t3.frm" (world_of store1) =
    (Throw (runtime_error "can't open file"),
     with_errno ENOENT (world_of store1)) /\
  Rename "./db1/t3.frm~" "./db1/t3.frm"
         (world_with_temp store1 "./db1/t3.frm~" []) =
    (Throw (runtime_error "can't read file"),
     world_with_temp store1 "./db1/t3.frm~" []).
Proof.
  split.
  - apply (Rename_unreadable_temp "./db1/t3.frm~" "./db1/t3.frm");
      [reflexivity | reflexivity | vm_compute; reflexivity].
  - apply (Rename_unreadable_temp "./db1/t3.frm~" "./db1/t3.frm");
      [reflexivity | reflexivity | vm_compute; reflexivity].
Defined.

Lemma Rename_frm_frame_witness :
  Store.Get kCfNameFrm "./db1/t2.frm"
    (w_store (snd (Rename "./db1/t1.frm" "./db1/t9.frm" (world_of store1)))) =
  Store.Get kCfNameFrm "./db1/t2.frm" store1.
Proof.
  apply (Rename_frm_frame "./db1/t1.frm" "./db1/t9.frm" (world_of store1));
    [reflexivity | reflexivity | reflexivity | reflexivity
    | right; split; discriminate].
Defined.

Lemma Rename_there_and_back_witness :
  fst (Rename "./db1/t1.frm" "./db1/t9.frm" (world_of store1)) = Ret (Some 0) /\
  fst (Rename "./db1/t9.frm" "./db1/t1.frm"
         (snd (Rename "./db1/t1.frm" "./db1/t9.frm" (world_of store1)))) =
    Ret (Some 0) /\
  w_store (snd (Rename "./db1/t9.frm" "./db1/t1.frm"
                  (snd (Rename "./db1/t1.frm" "./db1/t9.frm" (world_of store1))))) =
    store1.
Proof.
  apply (Rename_there_and_back "./db1/t1.frm" "./db1/t9.frm" [x61]
           (world_of store1));
    [reflexivity | reflexivity | reflexivity | reflexivity | discriminate
    | vm_compute; reflexivity | vm_compute; reflexivity].
Defined.

(** ** Unlink *)

Section UnlinkMore.
Import StoreFacts.

Lemma Unlink_known_run p w :
  IsKnownExtension p = true ->
  Unlink p w =
  (Ret (Some 0),
   log (CallDelete (cf_of p) p)
     (set_store (Store.Delete (cf_of p) p (w_store w)) w)).
Proof.
  intros Hext. unfold Unlink.
  assert (nonempty p = true) as -> by (destruct p; [discriminate|reflexivity]).
  rewrite Hext. run. rewrite (GetCf_known _ _ Hext). reflexivity.
Qed.

(** X18: [Unlink] on any path with a known extension (it checks no
    grammar) returns 0 and removes that one entry: the entry is absent
    afterwards, every other entry is as before, a store that had no such
    entry is unchanged, and a second [Unlink] changes nothing more. *)
Theorem Unlink_removes_one p w :
  IsKnownExtension p = true ->
  let w' := snd (Unlink p w) in
  fst (Unlink p w) = Ret (Some 0) /\
  Store.Get (cf_of p) p (w_store w') = None /\
  (forall cf k, cf <> cf_of p \/ k <> p ->
                Store.Get cf k (w_store w') = Store.Get cf k (w_store w)) /\
  (Store.Get (cf_of p) p (w_store w) = None -> w_store w' = w_store w) /\
  w_store (snd (Unlink p w')) = w_store w'.
Proof.
  intros Hext w'. subst w'.
  assert (forall s, Store.Get (cf_of p) p s = None ->
                    Store.Delete (cf_of p) p s = s) as Hid.
  { intros [db frm]. unfold Store.Get, Store.Delete.
    destruct (cf_of p); simpl; intros H; f_equal; apply delete_id; exact H. }
  rewrite !(Unlink_known_run _ _ Hext). cbn [fst snd].
  rewrite !w_store_log. unfold set_store. cbn [w_store].
  repeat split.
  - apply Get_Delete_eq.
  - intros cf k Hk. apply Get_Delete_ne. destruct Hk; [left|right]; congruence.
  - apply Hid.
  - apply Hid. apply Get_Delete_eq.
Qed.

End UnlinkMore.

Lemma Unlink_removes_one_witness :
  fst (Unlink "./db1/t1.frm" (world_of store1)) = Ret (Some 0) /\
  Store.Get kCfNameFrm "./db1/t1.frm"
    (w_store (snd (Unlink "./db1/t1.frm" (world_of store1)))) = None.
Proof.
  destruct (Unlink_removes_one "./db1/t1.frm" (world_of store1) eq_refl)
    as (H1 & H2 & _).
  split; [exact H1 | exact H2].
Defined.

(** ** Write and Read at any offset *)

Section WriteMore.
Import StoreFacts.

Variable p : string.
Hypothesis known : IsKnownExtension p = true.

Lemma Read_present_run v count offset w :
  Store.Get (cf_of p) p (w_store w) = Some v ->
  fst (Read p count offset w) =
  if len v <=? offset then Ret (0, [])
  else Ret (Z.min count (len v - offset),
            take (Z.to_nat (Z.min count (len v - offset)))
                 (drop (Z.to_nat offset) v)).
Proof.
  intros Hget. unfold Read. run. rewrite (GetCf_known _ _ known).
  unfold store_Get. rewrite Hget. destruct (len v <=? offset); reflexivity.
Qed.

(** X19: what is written at an offset is read back from that offset: on a
    known-extension path, when [offset + len(data)] is in [size_t] and is a
    size a string can have (at most [max_size()]) or no more than the
    stored value's length, [Write] of [data] at [offset] returns and a
    [Read] of [len(data)] bytes at [offset] then returns [len(data)] and
    exactly [data]. *)
Theorem Write_then_Read_at data offset w :
  0 <= offset -> offset + len data <= Str.size_max ->
  offset + len data <= Str.max_size \/
  offset + len data <= len (default [] (Store.Get (cf_of p) p (w_store w))) ->
  fst (Write p data offset w) = Ret tt /\
  fst (Read p (len data) offset (snd (Write p data offset w))) =
    Ret (len data, data).
Proof.
  intros H0 Hfit Hok. rewrite (Write_stores_run _ known _ _ _ H0 Hfit Hok).
  split; [reflexivity|].
  set (old := default [] (Store.Get (cf_of p) p (w_store w))).
  destruct (written_value old data offset H0) as [Hlen Hdata].
  set (v := memcpy_at offset data _) in *.
  rewrite (Read_present_run v).
  2:{ unfold store_Put. cbn [snd]. rewrite w_store_log. unfold set_store.
      cbn [w_store]. apply Get_Put_eq. }
  assert (0 <= len data) by (unfold len; lia).
  assert (0 <= len old) by (unfold len; lia).
  destruct (Z.leb_spec (len v) offset) as [Hle|Hgt].
  - assert (length data = 0%nat) as Hd by (unfold len in *; lia).
    apply nil_length_inv in Hd. subst data. reflexivity.
  - rewrite Z.min_l by lia. unfold len at 2. rewrite Nat2Z.id, Hdata.
    reflexivity.
Qed.

(** X20: a [Write] never shrinks a file: after a [Write] whose extent
    [offset + len(data)] is in [size_t], [Size] returns the larger of the
    old length and that extent; except that when the value would have to
    grow beyond [max_size()] the [resize] throws, nothing is stored, and
    [Size] returns the old length. *)
Theorem Write_then_Size data offset w :
  0 <= offset -> offset + len data <= Str.size_max ->
  let old := default [] (Store.Get (cf_of p) p (w_store w)) in
  fst (Size p (snd (Write p data offset w))) =
  Ret (if (len old <? offset + len data) && (Str.max_size <? offset + len data)
       then len old
       else Z.max (len old) (offset + len data)).
Proof.
  intros H0 Hfit old.
  rewrite (Write_no_overflow_run _ known _ _ _ H0 Hfit). cbv zeta. fold old.
  unfold Size. run. rewrite (GetCf_known _ _ known). unfold store_Get.
  destruct (_ && _).
  - cbn [snd fst]. rewrite w_store_log. reflexivity.
  - unfold store_Put. cbn [snd fst]. rewrite w_store_log. unfold set_store.
    cbn [w_store]. rewrite Get_Put_eq. cbn [default].
    f_equal. apply written_value. exact H0.
Qed.

(** X21: a [Write], whether it succeeds or throws, changes no entry but the
    one of its path, and neither the scratch filesystem nor [errno]. *)
Theorem Write_frame data offset w :
  let w' := snd (Write p data offset w) in
  (forall cf k, cf <> cf_of p \/ k <> p ->
                Store.Get cf k (w_store w') = Store.Get cf k (w_store w)) /\
  w_memfs w' = w_memfs w /\ w_errno w' = w_errno w.
Proof.
  intros w'. subst w'. rewrite (Write_run _ known). cbv zeta.
  destruct (_ <? offset); [repeat split|].
  destruct (_ && _); [repeat split|].
  unfold store_Put. cbn [snd]. repeat split.
  intros cf k Hk. rewrite w_store_log. unfold set_store. cbn [w_store].
  rewrite w_store_log. apply Get_Put_ne. destruct Hk; [left|right]; congruence.
Qed.

(** X22: a [Write] inside the current value overwrites in place: the bytes
    before [offset] and the bytes from [offset + len(data)] on are the old
    ones. (Were the value to grow beyond [max_size()], the [resize] would
    throw and the old value stay.) *)
Theorem Write_in_place data offset old w :
  Store.Get (cf_of p) p (w_store w) = Some old ->
  0 <= offset <= len old ->
  offset + len data <= Str.size_max ->
  Store.Get (cf_of p) p (w_store (snd (Write p data offset w))) =
    Some (if (len old <? offset + len data)
             && (Str.max_size <? offset + len data)
          then old
          else (take (Z.to_nat offset) old ++ data
                ++ drop (Z.to_nat offset + length data) old)%list).
Proof.
  intros Hget Hin Hfit.
  rewrite (Write_no_overflow_run _ known _ _ _ (proj1 Hin) Hfit), Hget.
  cbv zeta. cbn [default].
  destruct (_ && _).
  - cbn [snd]. rewrite w_store_log. exact Hget.
  - unfold store_Put. cbn [snd]. rewrite w_store_log. unfold set_store.
    cbn [w_store]. rewrite Get_Put_eq, written_inside by exact Hin.
    reflexivity.
Qed.

(** X23: reads compose: on a stored value, a [Read] of [c1] bytes at
    [offset] followed by a [Read] of [c2] bytes where the first one stopped
    returns, put together, what one [Read] of [c1 + c2] bytes at [offset]
    returns. *)
Theorem Read_in_two_steps v c1 c2 offset w :
  Store.Get (cf_of p) p (w_store w) = Some v ->
  0 <= offset -> 0 <= c1 -> 0 <= c2 ->
  exists n1 b1 n2 b2,
    fst (Read p c1 offset w) = Ret (n1, b1) /\
    fst (Read p c2 (offset + n1) w) = Ret (n2, b2) /\
    fst (Read p (c1 + c2) offset w) = Ret (n1 + n2, (b1 ++ b2)%list).
Proof.
  intros Hget H0 Hc1 Hc2.
  assert (0 <= len v) as Hv by (unfold len; lia).
  destruct (Z.leb_spec (len v) offset) as [Heof|Hin].
  - exists 0, [], 0, []. rewrite Z.add_0_r.
    rewrite !(Read_present_run v) by exact Hget.
    destruct (Z.leb_spec (len v) offset); [|lia]. auto.
  - set (n1 := Z.min c1 (len v - offset)).
    destruct (Z.leb_spec (len v) (offset + n1)) as [Hend|Hmore].
    + exists n1, (take (Z.to_nat n1) (drop (Z.to_nat offset) v)), 0, [].
      rewrite !(Read_present_run v) by exact Hget.
      destruct (Z.leb_spec (len v) offset); [lia|].
      destruct (Z.leb_spec (len v) (offset + n1)); [|lia].
      repeat split. rewrite Z.add_0_r, app_nil_r.
      replace (Z.min (c1 + c2) (len v - offset)) with n1 by lia.
      reflexivity.
    + set (n2 := Z.min c2 (len v - (offset + n1))).
      exists n1, (take (Z.to_nat n1) (drop (Z.to_nat offset) v)),
             n2, (take (Z.to_nat n2) (drop (Z.to_nat (offset + n1)) v)).
      rewrite !(Read_present_run v) by exact Hget.
      destruct (Z.leb_spec (len v) offset); [lia|].
      destruct (Z.leb_spec (len v) (offset + n1)); [lia|].
      repeat split.
      replace (Z.min (c1 + c2) (len v - offset)) with (n1 + n2) by lia.
      f_equal. f_equal.
      replace (Z.to_nat (offset + n1)) with (Z.to_nat offset + Z.to_nat n1)%nat
        by lia.
      rewrite <- drop_drop, take_take_drop. f_equal. lia.
Qed.

End WriteMore.

Lemma Write_then_Read_at_witness :
  fst (Write "./db1/t1.frm" [x58; x59] 3 (world_of store1)) = Ret tt /\
  fst (Read "./db1/t1.frm" 2 3
         (snd (Write "./db1/t1.frm" [x58; x59] 3 (world_of store1)))) =
    Ret (2, [x58; x59]).
Proof.
  apply (Write_then_Read_at "./db1/t1.frm" eq_refl [x58; x59] 3
           (world_of store1));
    [vm_compute; discriminate | vm_compute; discriminate
    | left; vm_compute; discriminate].
Defined.

Lemma Write_then_Size_witness :
  fst (Size "./db1/t1.frm"
         (snd (Write "./db1/t1.frm" [x58; x59] 3 (world_of store1)))) = Ret 5.
Proof.
  apply (Write_then_Size "./db1/t1.frm" eq_refl [x58; x59] 3
           (world_of store1)); vm_compute; discriminate.
Defined.

Lemma Write_frame_witness :
  Store.Get kCfNameFrm "./db1/t2.frm"
    (w_store (snd (Write "./db1/t1.frm" [x58; x59] 3 (world_of store1)))) =
  Store.Get kCfNameFrm "./db1/t2.frm" store1.
Proof.
  apply (Write_frame "./db1/t1.frm" eq_refl [x58; x59] 3 (world_of store1)).
  right. discriminate.
Defined.

Lemma Write_in_place_witness :
  Store.Get kCfNameFrm "./db1/t1.frm"
    (w_store (snd (Write "./db1/t1.frm" [x58] 0 (world_of store1)))) =
  Some [x58].
Proof.
  apply (Write_in_place "./db1/t1.frm" eq_refl [x58] 0 [x61] (world_of store1));
    [vm_compute; reflexivity | vm_compute; split; discriminate
    | vm_compute; discriminate].
Defined.

Lemma Read_in_two_steps_witness :
  exists n1 b1 n2 b2,
    fst (Read "./db1/t1.frm" 1 0 (world_of store1)) = Ret (n1, b1) /\
    fst (Read "./db1/t1.frm" 4 (0 + n1) (world_of store1)) = Ret (n2, b2) /\
    fst (Read "./db1/t1.frm" (1 + 4) 0 (world_of store1)) =
      Ret (n1 + n2, (b1 ++ b2)%list).
Proof.
  apply (Read_in_two_steps "./db1/t1.frm" eq_refl [x61] 1 4 0 (world_of store1));
    [vm_compute; reflexivity | discriminate | discriminate | discriminate].
Defined.

(** ** Directory listings against the store's keys *)

Module DirMore.
Import StrFacts Grammar PathFacts StoreFacts DirFacts PathMore Classify.

Lemma app_same_prefix_length a b x y :
  String.length a = String.length b -> a +:+ x = b +:+ y -> a = b /\ x = y.
Proof.
  revert b. induction a as [|c a IH]; intros [|c' b] Hl H; try discriminate.
  - auto.
  - rewrite !app_cons in H. injection H as -> H. injection Hl as Hl.
    destruct (IH _ Hl H) as [-> ->]. auto.
Qed.

Lemma last_slash_unique pre n pre' n' :
  Str.contains "/" n = false -> Str.contains "/" n' = false ->
  pre +:+ "/" +:+ n = pre' +:+ "/" +:+ n' -> pre = pre' /\ n = n'.
Proof.
  intros Hn Hn' H.
  assert (Str.size pre = Str.size pre') as Hs.
  { rewrite <- (rfind_last pre n Hn), <- (rfind_last pre' n' Hn'), H.
    reflexivity. }
  unfold Str.size in Hs. apply Nat2Z.inj in Hs.
  destruct (app_same_prefix_length _ _ _ _ Hs H) as [-> H']. split; [reflexivity|].
  change (String "/" n = String "/" n') in H'. injection H' as H'. exact H'.
Qed.

Lemma first_slash_unique d d' x y :
  Str.contains "/" d = false -> Str.contains "/" d' = false ->
  d +:+ String "/" x = d' +:+ String "/" y -> d = d' /\ x = y.
Proof.
  revert d'. induction d as [|a d IH]; intros [|a' d'] Hd Hd' H.
  - injection H as ->. auto.
  - rewrite app_nil_l, app_cons in H. injection H as <- _.
    simpl in Hd'. discriminate.
  - rewrite app_nil_l, app_cons in H. injection H as -> _.
    simpl in Hd. discriminate.
  - rewrite !app_cons in H. injection H as -> H.
    simpl in Hd, Hd'. apply orb_false_elim in Hd as [_ Hd].
    apply orb_false_elim in Hd' as [_ Hd'].
    destruct (IH _ Hd Hd' H) as [-> ->]. auto.
Qed.

Lemma prefix_app pre rest : String.prefix pre (pre +:+ rest) = true.
Proof. apply String.prefix_correct. apply substring_take. Qed.

Lemma prefix_inv pre k :
  String.prefix pre k = true -> exists rest, k = pre +:+ rest.
Proof.
  intros H. apply String.prefix_correct in H.
  exact (substring_prefix_inv _ _ _ H).
Qed.

Lemma GetKeys_NoDup cf prefix s : NoDup (Store.GetKeys cf prefix s).
Proof.
  unfold Store.GetKeys.
  pose proof (NoDup_fst_map_to_list (Store.column cf s)) as H.
  change (NoDup (map fst (map_to_list (Store.column cf s)))) in H.
  induction H as [|x l Hx Hl IH]; simpl; [constructor|].
  destruct (String.prefix prefix x); [|exact IH].
  constructor; [|exact IH].
  intros Hin. apply Hx.
  apply list_elem_of_In, filter_In in Hin as [Hin _].
  apply list_elem_of_In. exact Hin.
Qed.

(** A loop in which some body throws, when no body touches the world. *)
Lemma for_each_throws {A B} (f : A -> M B) e l w :
  (forall x, x ∈ l ->
     (exists y, forall w0, f x w0 = (Ret y, w0)) \/
     (forall w0, f x w0 = (Throw e, w0))) ->
  (exists x, x ∈ l /\ forall w0, f x w0 = (Throw e, w0)) ->
  for_each f l w = (Throw e, w).
Proof.
  induction l as [|x l IH]; intros Hall (x0 & Hin & Hthrow).
  - apply elem_of_nil in Hin. destruct Hin.
  - simpl. unfold bind at 1.
    destruct (Hall x) as [[y Hy]|Hx]; [left| |rewrite Hx; reflexivity].
    rewrite Hy. unfold bind at 1.
    rewrite IH; [reflexivity| |].
    + intros x' Hx'. apply Hall. right. exact Hx'.
    + apply elem_of_cons in Hin as [->|Hin].
      * pose proof (Hy w) as Hyw. rewrite Hthrow in Hyw. discriminate.
      * exists x0. auto.
Qed.

(** The body of the root listing on one key. *)
Lemma strip_root_key k :
  Str.size k < Str.npos ->
  if Str.contains "/" k
  then exists n, forall w0,
         (x1 <- checked (Str.erase_from (Str.rfind "/" k) k) ;;
          checked (Str.erase 0 2 x1)) w0 = (Ret n, w0)
  else forall w0,
         (x1 <- checked (Str.erase_from (Str.rfind "/" k) k) ;;
          checked (Str.erase 0 2 x1)) w0 = (Throw out_of_range, w0).
Proof.
  intros Hsize. destruct (Str.contains "/" k) eqn:Hc.
  - destruct (rfind_from_some _ _ 0%nat Hc) as (pre & post & -> & _ & Hfind).
    unfold Str.rfind. rewrite Hfind. simpl Nat.add.
    unfold Str.erase_from. fold (Str.size pre).
    pose proof (size_nonneg pre). pose proof (size_nonneg (String "/" post)).
    destruct (Z.ltb_spec (Str.size (pre +:+ String "/" post)) (Str.size pre))
      as [Hlt|_]; [rewrite size_app in Hlt; lia|].
    set (x1 := Str.substr 0 (Str.size pre) (pre +:+ String "/" post)).
    pose proof (size_nonneg x1).
    exists (Str.substr 0 0 x1
            +:+ Str.substr_from (0 + Z.min 2 (Str.size x1 - 0)) x1).
    intros w0. unfold bind, checked, ret. cbn beta iota. unfold Str.erase.
    destruct (Z.ltb_spec (Str.size x1) 0) as [Hlt|_]; [lia|reflexivity].
  - unfold Str.rfind. rewrite (rfind_from_none _ _ _ Hc).
    unfold Str.erase_from.
    destruct (Z.ltb_spec (Str.size k) Str.npos) as [_|Hge]; [|lia].
    intros w0. reflexivity.
Qed.

(** X24: [Dir] on the root returns a listing, one name per [Db] key, when
    every [Db] key has a separator; one key without a separator makes it
    throw [std::out_of_range] (from [x.erase(x.rfind('/'))]). *)
Theorem Dir_root_needs_separators w :
  (forall k, k ∈ Store.GetKeys kCfNameDb "" (w_store w) ->
             Str.size k < Str.npos) ->
  ((forall k, k ∈ Store.GetKeys kCfNameDb "" (w_store w) ->
              Str.contains "/" k = true) ->
   exists names,
     fst (Dir "." w) = Ret names /\
     length names = length (Store.GetKeys kCfNameDb "" (w_store w))) /\
  ((exists k, k ∈ Store.GetKeys kCfNameDb "" (w_store w) /\
              Str.contains "/" k = false) ->
   fst (Dir "." w) = Throw out_of_range).
Proof.
  intros Hsize.
  assert (Dir "." w =
          for_each (fun x =>
                      x1 <- checked (Str.erase_from (Str.rfind "/" x) x) ;;
                      checked (Str.erase 0 2 x1))
                   (Store.GetKeys kCfNameDb "" (w_store w))
                   (log (CallGetKeys kCfNameDb "") w)) as ->
    by reflexivity.
  split.
  - intros Hall.
    edestruct (for_each_pure
                 (fun x =>
                    x1 <- checked (Str.erase_from (Str.rfind "/" x) x) ;;
                    checked (Str.erase 0 2 x1))
                 (fun _ _ => True)
                 (Store.GetKeys kCfNameDb "" (w_store w)))
      as (names & Hrun & HF).
    + intros k Hk. pose proof (strip_root_key k (Hsize k Hk)) as H.
      rewrite (Hall k Hk) in H. destruct H as [n Hn]. exists n. auto.
    + exists names. rewrite Hrun. split; [reflexivity|].
      symmetry. exact (Forall2_length _ _ _ HF).
  - intros (k & Hk & Hno).
    rewrite (for_each_throws _ out_of_range); [reflexivity| |].
    + intros x Hx. pose proof (strip_root_key x (Hsize x Hx)) as H.
      destruct (Str.contains "/" x); [left|right]; exact H.
    + exists k. split; [exact Hk|].
      pose proof (strip_root_key k (Hsize k Hk)) as H.
      rewrite Hno in H. exact H.
Qed.

End DirMore.

(** ** The keys the handlers leave in the store *)

Module Invariant.
Import StrFacts Grammar PathFacts StoreFacts DirFacts PathMore Classify DirMore.

Lemma file_no_slash f :
  (f = "db.opt" \/ exists t, is_segment t = true /\ f = t +:+ ".frm") ->
  Str.contains "/" f = false.
Proof.
  intros [->|(t & Ht & ->)]; [reflexivity|].
  rewrite contains_app, (segment_no_slash _ Ht). reflexivity.
Qed.

Lemma wf_Delete cf k s : store_wf s -> store_wf (Store.Delete cf k s).
Proof.
  intros [Hdb Hfrm]. split; intros k' [v Hv].
  - apply Hdb. exists v. destruct cf.
    + destruct (decide (k = k')) as [->|Hne];
        [rewrite Get_Delete_eq in Hv; discriminate|].
      rewrite Get_Delete_ne in Hv by (right; exact Hne). exact Hv.
    + rewrite Get_Delete_ne in Hv by (left; discriminate). exact Hv.
  - apply Hfrm. exists v. destruct cf.
    + rewrite Get_Delete_ne in Hv by (left; discriminate). exact Hv.
    + destruct (decide (k = k')) as [->|Hne];
        [rewrite Get_Delete_eq in Hv; discriminate|].
      rewrite Get_Delete_ne in Hv by (right; exact Hne). exact Hv.
Qed.

Lemma wf_Put_Frm k v s :
  regex_match k re_path_to_known_file = true ->
  store_wf s -> store_wf (Store.Put kCfNameFrm k v s).
Proof.
  intros Hk [Hdb Hfrm]. split; intros k' [v' Hv].
  - apply Hdb. exists v'.
    rewrite Get_Put_ne in Hv by (left; discriminate). exact Hv.
  - destruct (decide (k = k')) as [<-|Hne]; [exact Hk|].
    apply Hfrm. exists v'.
    rewrite Get_Put_ne in Hv by (right; exact Hne). exact Hv.
Qed.

Lemma wf_Put_Db d v s :
  is_segment d = true ->
  store_wf s -> store_wf (Store.Put kCfNameDb ("./" +:+ d +:+ "/db.opt") v s).
Proof.
  intros Hd [Hdb Hfrm]. split; intros k' [v' Hv].
  - destruct (decide ("./" +:+ d +:+ "/db.opt" = k')) as [<-|Hne];
      [exists d; auto|].
    apply Hdb. exists v'.
    rewrite Get_Put_ne in Hv by (right; exact Hne). exact Hv.
  - apply Hfrm. exists v'.
    rewrite Get_Put_ne in Hv by (left; discriminate). exact Hv.
Qed.

(** A known-file path that goes to the [Db] family is a [db.opt]. *)
Lemma known_file_in_Db p :
  regex_match p re_path_to_known_file = true -> cf_of p = kCfNameDb ->
  exists d, is_segment d = true /\ p = "./" +:+ d +:+ "/db.opt".
Proof.
  intros Hp Hcf. apply known_file_spec in Hp as (d & f & -> & Hd & Hf).
  destruct Hf as [->|(t & _ & ->)]; [exists d; auto|].
  unfold cf_of in Hcf.
  replace ("./" +:+ d +:+ "/" +:+ t +:+ ".frm")
    with (("./" +:+ d +:+ "/" +:+ t) +:+ ".frm") in Hcf
    by (rewrite !app_assoc; reflexivity).
  rewrite StrEndsWith_app in Hcf. discriminate.
Qed.

Lemma wf_Put_known p v s :
  regex_match p re_path_to_known_file = true ->
  store_wf s -> store_wf (Store.Put (cf_of p) p v s).
Proof.
  intros Hp Hs. destruct (cf_of p) eqn:Hcf.
  - destruct (known_file_in_Db _ Hp Hcf) as (d & Hd & ->).
    apply wf_Put_Db; assumption.
  - apply wf_Put_Frm; assumption.
Qed.

(** X25: the handlers keep the shape of the store's keys. If every [Db]
    key is a [./<db>/db.opt] and every [Frm] key is a path of the
    known-file grammar, this is still so after any [Rename], after any
    [Unlink], and after a [Write] to a path of the known-file grammar,
    whatever they return or throw. *)
Theorem store_wf_preserved w :
  store_wf (w_store w) ->
  (forall oldpath newpath, store_wf (w_store (snd (Rename oldpath newpath w)))) /\
  (forall pathname, store_wf (w_store (snd (Unlink pathname w)))) /\
  (forall path buf offset,
     regex_match path re_path_to_known_file = true ->
     store_wf (w_store (snd (Write path buf offset w)))).
Proof.
  intros Hwf. split; [|split].
  - intros oldpath newpath. unfold Rename.
    destruct (StrEndsWith oldpath ".frm" && StrEndsWith newpath ".frm").
    + destruct (regex_match oldpath re_path_to_known_file); [|exact Hwf].
      destruct (regex_match newpath re_path_to_known_file) eqn:Hnew;
        [|exact Hwf].
      cbn [negb]. unfold bind, store_Get.
      destruct (Store.Get kCfNameFrm oldpath (w_store w)) as [v|];
        [|exact Hwf].
      exact (wf_Delete _ _ _ (wf_Put_Frm _ _ _ Hnew Hwf)).
    + destruct (StrEndsWith oldpath temp_frm_ext); [|exact Hwf].
      destruct (regex_match newpath re_path_to_known_file) eqn:Hnew;
        [|exact Hwf].
      cbn [negb]. unfold bind, ReadFile.
      destruct (Memfs.files (w_memfs w) !! oldpath) as [[|b content]|];
        try exact Hwf.
      exact (wf_Put_Frm _ _ _ Hnew Hwf).
  - intros pathname. unfold Unlink, bind, assert_.
    destruct (nonempty pathname); [|exact Hwf].
    destruct (negb (IsKnownExtension pathname)); [exact Hwf|].
    unfold GetCf.
    destruct (StrEndsWith pathname ".frm");
      [exact (wf_Delete _ _ _ Hwf)|].
    destruct (StrEndsWith pathname ".opt");
      [exact (wf_Delete _ _ _ Hwf)|exact Hwf].
  - intros path buf offset Hp.
    rewrite (Write_run _ (known_file_ext _ Hp)). cbv zeta.
    destruct (_ <? offset); [exact Hwf|].
    destruct (_ && _); [exact Hwf|].
    unfold store_Put. cbn [snd]. rewrite w_store_log. unfold set_store.
    cbn [w_store]. rewrite w_store_log. apply wf_Put_known; assumption.
Qed.

Lemma Forall2_is_map {A B} (g : B -> A) keys names :
  Forall2 (fun k n => k = g n) keys names -> keys = map g names.
Proof. induction 1; simpl; congruence. Qed.

Lemma Forall2_elem_l {A B} (R : A -> B -> Prop) l1 l2 x :
  Forall2 R l1 l2 -> x ∈ l1 -> exists y, y ∈ l2 /\ R x y.
Proof.
  induction 1 as [|a b l1 l2 Hab HF IH]; intros Hx.
  - apply elem_of_nil in Hx. destruct Hx.
  - apply elem_of_cons in Hx as [->|Hx].
    + exists b. split; [left|exact Hab].
    + destruct (IH Hx) as (y & Hy & HR). exists y. split; [right|]; auto.
Qed.

(** From the keys to the names, when the names determine the keys. *)
Lemma names_of_keys (g : string -> string) keys names :
  (forall n n', g n = g n' -> n = n') ->
  NoDup keys ->
  Forall2 (fun k n => k = g n) keys names ->
  NoDup names /\ forall n, n ∈ names <-> g n ∈ keys.
Proof.
  intros Hinj Hnd HF. apply Forall2_is_map in HF. subst keys. split.
  - exact (NoDup_fmap_1 g names Hnd).
  - intros n. split.
    + intros Hn. apply list_elem_of_fmap. exists n. auto.
    + intros Hn. apply list_elem_of_fmap in Hn as (n' & E & Hn').
      apply Hinj in E. subst n'. exact Hn'.
Qed.

Lemma db_opt_inj d d' :
  "./" +:+ d +:+ "/db.opt" = "./" +:+ d' +:+ "/db.opt" -> d = d'.
Proof.
  intros H. change (String "." (String "/" (d +:+ "/db.opt")) =
                    String "." (String "/" (d' +:+ "/db.opt"))) in H.
  injection H as H.
  apply app_same_length in H as [H _]; [exact H|reflexivity].
Qed.

(** X26: on a store with keys of the handlers' shape, [Dir] on the root
    returns the databases that exist, each once: a name is listed exactly
    when the store holds [./<name>/db.opt] in the [Db] family. *)
Theorem Dir_root_lists_existing w :
  store_wf (w_store w) ->
  exists names,
    fst (Dir "." w) = Ret names /\ NoDup names /\
    forall d, d ∈ names <->
              is_Some (Store.Get kCfNameDb ("./" +:+ d +:+ "/db.opt") (w_store w)).
Proof.
  intros [Hdb _].
  assert (Dir "." w =
          for_each (fun x =>
                      x1 <- checked (Str.erase_from (Str.rfind "/" x) x) ;;
                      checked (Str.erase 0 2 x1))
                   (Store.GetKeys kCfNameDb "" (w_store w))
                   (log (CallGetKeys kCfNameDb "") w)) as ->
    by reflexivity.
  edestruct (for_each_pure
               (fun x =>
                  x1 <- checked (Str.erase_from (Str.rfind "/" x) x) ;;
                  checked (Str.erase 0 2 x1))
               (fun k n => k = "./" +:+ n +:+ "/db.opt")
               (Store.GetKeys kCfNameDb "" (w_store w)))
    as (names & Hrun & HF).
  - intros k Hk. apply GetKeys_spec in Hk as [Hk _].
    destruct (Hdb k Hk) as (d & _ & ->).
    exists d. split; [|reflexivity]. intros w0.
    destruct (strip_db_opt d) as [H1 H2]. run. rewrite H1. cbn [checked]. run.
    rewrite H2. reflexivity.
  - exists names. rewrite Hrun. split; [reflexivity|].
    destruct (names_of_keys (fun n => "./" +:+ n +:+ "/db.opt") _ _
                db_opt_inj (GetKeys_NoDup _ _ _) HF) as [Hnd Hin].
    split; [exact Hnd|]. intros d. rewrite Hin, GetKeys_spec.
    split; [intros [H _]; exact H|]. intros H. split; [exact H|apply prefix_nil].
Qed.

End Invariant.

Lemma store1_wf : store_wf store1.
Proof.
  split; intros k [v Hv].
  - assert (k ∈ Store.GetKeys kCfNameDb "" store1) as Hk
      by (apply DirFacts.GetKeys_spec; split; [exists v; exact Hv|apply DirFacts.prefix_nil]).
    rewrite store1_db_keys in Hk.
    apply elem_of_cons in Hk as [->|Hk]; [exists "db1"; auto|].
    apply elem_of_cons in Hk as [->|Hk]; [exists "db2"; auto|].
    apply elem_of_nil in Hk. destruct Hk.
  - assert (k ∈ Store.GetKeys kCfNameFrm "" store1) as Hk
      by (apply DirFacts.GetKeys_spec; split; [exists v; exact Hv|apply DirFacts.prefix_nil]).
    assert (Store.GetKeys kCfNameFrm "" store1 = ["./db1/t1.frm"; "./db1/t2.frm"])
      as E by (vm_compute; reflexivity).
    rewrite E in Hk.
    apply elem_of_cons in Hk as [->|Hk]; [reflexivity|].
    apply elem_of_cons in Hk as [->|Hk]; [reflexivity|].
    apply elem_of_nil in Hk. destruct Hk.
Defined.

Lemma store_wf_preserved_witness :
  store_wf (w_store (snd (Rename "./db1/t1.frm" "./db1/t9.frm" (world_of store1)))) /\
  store_wf (w_store (snd (Unlink "./db1/t1.frm" (world_of store1)))) /\
  store_wf (w_store (snd (Write "./db3/db.opt" [x58] 0 (world_of store1)))).
Proof.
  destruct (Invariant.store_wf_preserved (world_of store1) store1_wf)
    as (H1 & H2 & H3).
  split; [apply H1|]. split; [apply H2|]. apply H3. reflexivity.
Defined.

Lemma Dir_root_lists_existing_witness :
  exists names,
    fst (Dir "." (world_of store1)) = Ret names /\ NoDup names /\
    forall d, d ∈ names <->
              is_Some (Store.Get kCfNameDb ("./" +:+ d +:+ "/db.opt") store1).
Proof.
  apply (Invariant.Dir_root_lists_existing (world_of store1) store1_wf).
Defined.

(** ** Folder listings *)

Module FolderListing.
Import StrFacts Grammar PathFacts StoreFacts DirFacts PathMore Classify DirMore
  Invariant.

(** [Dir] on a path of the folder grammar, as a loop over the listed keys. *)
Lemma Dir_folder_run path w :
  regex_match path re_folder = true -> NormalizePath path = path ->
  Dir path w =
  for_each (fun x => checked (Str.erase 0 (Str.wrap (Str.rfind "/" x + 1)) x))
           (Store.GetKeys kCfNameFrm path (w_store w))
           (log (CallGetKeys kCfNameFrm path) w).
Proof.
  intros Hf Hn. unfold Dir. rewrite Hn.
  assert (String.eqb path "." = false) as ->.
  { apply String.eqb_neq. intros E. rewrite E in Hf. discriminate. }
  rewrite Hf. reflexivity.
Qed.

Lemma folder_normal path :
  regex_match path re_folder = true -> NormalizePath path = path.
Proof.
  intros H. apply folder_spec in H as (d & _ & [->| ->]);
    exact (NormalizePath_relative _).
Qed.

Lemma file_key_inj d n n' :
  "./" +:+ d +:+ "/" +:+ n = "./" +:+ d +:+ "/" +:+ n' -> n = n'.
Proof.
  intros E. do 3 apply String.app_inj in E. exact E.
Qed.

(** X27: on a store with keys of the handlers' shape (and of sizes that fit
    [size_t]), [Dir] on [./<db>/] returns the files of that database, each
    once: a name is listed exactly when the store holds [./<db>/<name>] in
    the [Frm] family. *)
Theorem Dir_folder_lists_files d w :
  is_segment d = true ->
  store_wf (w_store w) ->
  (forall k, is_Some (Store.Get kCfNameFrm k (w_store w)) ->
             Str.representable k) ->
  exists names,
    fst (Dir ("./" +:+ d +:+ "/") w) = Ret names /\ NoDup names /\
    forall n, n ∈ names <->
              is_Some (Store.Get kCfNameFrm ("./" +:+ d +:+ "/" +:+ n) (w_store w)).
Proof.
  intros Hd [_ Hfrm] Hsize.
  assert (regex_match ("./" +:+ d +:+ "/") re_folder = true) as Hfolder
    by (apply folder_spec; exists d; auto).
  rewrite (Dir_folder_run _ _ Hfolder (folder_normal _ Hfolder)).
  edestruct (for_each_pure
               (fun x => checked (Str.erase 0 (Str.wrap (Str.rfind "/" x + 1)) x))
               (fun k n => k = "./" +:+ d +:+ "/" +:+ n)
               (Store.GetKeys kCfNameFrm ("./" +:+ d +:+ "/") (w_store w)))
    as (names & Hrun & HF).
  - intros k Hk. apply GetKeys_spec in Hk as [Hk Hpre].
    pose proof (Hsize k Hk) as Hrep.
    pose proof (Hfrm k Hk) as Hshape.
    apply known_file_spec in Hshape as (d' & f & -> & Hd' & Hf).
    apply prefix_inv in Hpre as [rest Hrest]. rewrite !app_assoc in Hrest.
    change (String "." (String "/" (d' +:+ String "/" f)) =
            String "." (String "/" (d +:+ String "/" rest))) in Hrest.
    injection Hrest as Hrest.
    apply first_slash_unique in Hrest as [-> ->];
      [|apply segment_no_slash; assumption..].
    pose proof (file_no_slash _ Hf) as Hns.
    destruct (strip_to_basename _ Hrep) as (pre & n & Hk' & Hn & He).
    { exact (under_folder_has_slash _ _ Hfolder
               (prefix_app ("./" +:+ d +:+ "/") rest)). }
    replace ("./" +:+ d +:+ "/" +:+ rest)
      with (("./" +:+ d) +:+ "/" +:+ rest) in Hk'
      by (rewrite !app_assoc; reflexivity).
    apply last_slash_unique in Hk' as [_ <-]; [|assumption..].
    exists rest. split; [|reflexivity]. intros w0. rewrite He. reflexivity.
  - exists names. rewrite Hrun. split; [reflexivity|].
    destruct (names_of_keys (fun n => "./" +:+ d +:+ "/" +:+ n) _ _
                (file_key_inj d) (GetKeys_NoDup _ _ _) HF) as [Hnd Hin].
    split; [exact Hnd|]. intros n. rewrite Hin, GetKeys_spec.
    split; [intros [H _]; exact H|]. intros H. split; [exact H|].
    replace ("./" +:+ d +:+ "/" +:+ n) with (("./" +:+ d +:+ "/") +:+ n)
      by (rewrite !app_assoc; reflexivity).
    apply prefix_app.
Qed.

(** X28: [Dir] on a folder path given without the trailing separator asks
    the store for every [Frm] key that starts with [./<db>], so it also
    lists the files of any database whose name starts with [<db>]: the file
    name of a stored [./<db><more>/<name>] is in the listing. *)
Theorem Dir_without_separator_over_lists d more n w :
  is_segment d = true ->
  (forall k, k ∈ Store.GetKeys kCfNameFrm ("./" +:+ d) (w_store w) ->
             Str.representable k) ->
  is_Some (Store.Get kCfNameFrm ("./" +:+ d +:+ more +:+ "/" +:+ n) (w_store w)) ->
  Str.contains "/" n = false ->
  exists names, fst (Dir ("./" +:+ d) w) = Ret names /\ n ∈ names.
Proof.
  intros Hd Hsize Hkey Hn.
  assert (regex_match ("./" +:+ d) re_folder = true) as Hfolder
    by (apply folder_spec; exists d; auto).
  rewrite (Dir_folder_run _ _ Hfolder (folder_normal _ Hfolder)).
  edestruct (for_each_pure
               (fun x => checked (Str.erase 0 (Str.wrap (Str.rfind "/" x + 1)) x))
               (fun k n0 => exists pre, k = pre +:+ "/" +:+ n0 /\
                                        Str.contains "/" n0 = false)
               (Store.GetKeys kCfNameFrm ("./" +:+ d) (w_store w)))
    as (names & Hrun & HF).
  - intros k Hk.
    destruct (strip_to_basename k (Hsize k Hk)) as (pre & n0 & Hk' & Hn0 & He).
    { apply GetKeys_spec in Hk as [_ Hpre].
      exact (under_folder_has_slash _ _ Hfolder Hpre). }
    exists n0. split; [|exists pre; auto].
    intros w0. rewrite He. reflexivity.
  - exists names. rewrite Hrun. split; [reflexivity|].
    assert (("./" +:+ d +:+ more +:+ "/" +:+ n)
              ∈ Store.GetKeys kCfNameFrm ("./" +:+ d) (w_store w)) as Hin.
    { apply GetKeys_spec. split; [exact Hkey|].
      replace ("./" +:+ d +:+ more +:+ "/" +:+ n)
        with (("./" +:+ d) +:+ more +:+ "/" +:+ n)
        by (rewrite !app_assoc; reflexivity).
      apply prefix_app. }
    destruct (Forall2_elem_l _ _ _ _ HF Hin) as (n0 & Hn0 & pre & E & Hns).
    replace ("./" +:+ d +:+ more +:+ "/" +:+ n)
      with (("./" +:+ d +:+ more) +:+ "/" +:+ n) in E
      by (rewrite !app_assoc; reflexivity).
    apply last_slash_unique in E as [_ ->]; assumption.
Qed.

End FolderListing.

Lemma store1_frm_sizes k :
  is_Some (Store.Get kCfNameFrm k store1) -> Str.representable k.
Proof.
  intros [v Hv].
  assert (k ∈ Store.GetKeys kCfNameFrm "" store1) as Hk
    by (apply DirFacts.GetKeys_spec; split;
        [exists v; exact Hv|apply DirFacts.prefix_nil]).
  assert (Store.GetKeys kCfNameFrm "" store1 = ["./db1/t1.frm"; "./db1/t2.frm"])
    as E by (vm_compute; reflexivity).
  rewrite E in Hk.
  apply elem_of_cons in Hk as [->|Hk]; [vm_compute; discriminate|].
  apply elem_of_cons in Hk as [->|Hk]; [vm_compute; discriminate|].
  apply elem_of_nil in Hk. destruct Hk.
Defined.

Lemma Dir_folder_lists_files_witness :
  exists names,
    fst (Dir ("./" +:+ "db1" +:+ "/") (world_of store1)) = Ret names /\
    NoDup names /\
    forall n, n ∈ names <->
              is_Some (Store.Get kCfNameFrm ("./" +:+ "db1" +:+ "/" +:+ n) store1).
Proof.
  apply (FolderListing.Dir_folder_lists_files "db1" (world_of store1) eq_refl
           store1_wf store1_frm_sizes).
Defined.

Lemma Dir_without_separator_over_lists_witness :
  exists names,
    fst (Dir ("./" +:+ "db") (world_of store1)) = Ret names /\ "t1.frm" ∈ names.
Proof.
  apply (FolderListing.Dir_without_separator_over_lists "db" "1" "t1.frm"
           (world_of store1) eq_refl).
  - intros k Hk. apply DirFacts.GetKeys_spec in Hk as [Hk _].
    exact (store1_frm_sizes k Hk).
  - exists [x61]. vm_compute. reflexivity.
  - reflexivity.
Defined.

Lemma Dir_root_needs_separators_witness :
  (exists names,
     fst (Dir "." (world_of store1)) = Ret names /\
     length names = length (Store.GetKeys kCfNameDb "" store1)) /\
  fst (Dir "." (world_of store_bare)) = Throw out_of_range.
Proof.
  assert (Store.GetKeys kCfNameDb "" store_bare =
          ["./db1/db.opt"; "./db2/db.opt"; "x.opt"]) as Ebare
    by (vm_compute; reflexivity).
  split.
  - apply (DirMore.Dir_root_needs_separators (world_of store1)).
    + intros k Hk. change (w_store (world_of store1)) with store1 in Hk.
      rewrite store1_db_keys in Hk.
      apply elem_of_cons in Hk as [->|Hk]; [vm_compute; reflexivity|].
      apply elem_of_cons in Hk as [->|Hk]; [vm_compute; reflexivity|].
      apply elem_of_nil in Hk. destruct Hk.
    + intros k Hk. change (w_store (world_of store1)) with store1 in Hk.
      rewrite store1_db_keys in Hk.
      apply elem_of_cons in Hk as [->|Hk]; [reflexivity|].
      apply elem_of_cons in Hk as [->|Hk]; [reflexivity|].
      apply elem_of_nil in Hk. destruct Hk.
  - apply (DirMore.Dir_root_needs_separators (world_of store_bare)).
    + intros k Hk. change (w_store (world_of store_bare)) with store_bare in Hk.
      rewrite Ebare in Hk.
      apply elem_of_cons in Hk as [->|Hk]; [vm_compute; reflexivity|].
      apply elem_of_cons in Hk as [->|Hk]; [vm_compute; reflexivity|].
      apply elem_of_cons in Hk as [->|Hk]; [vm_compute; reflexivity|].
      apply elem_of_nil in Hk. destruct Hk.
    + exists "x.opt". split; [|reflexivity].
      change (w_store (world_of store_bare)) with store_bare.
      rewrite Ebare. right. right. left.
Defined.
